(** * Resumable chunked upload: the mock chunk server and the onboard uploader

    A shallow embedding of [upload_server.py] (the FastAPI handlers
    [initiate], [status], [upload_chunk], [complete]) and of
    [onboard/uploader.py] ([load_meta], [get_uploaded_chunks], [run_upload]
    and its retry loop), followed by the properties of the transfer
    protocol.

    Conventions of the model.
    - The directory [UPLOAD_ROOT] is a finite map from entry names to nodes:
      a session directory (the text of [meta_filename.txt] and the files
      [chunk_<index>.part], keyed by their index) or a regular file (an
      assembled artifact).  Request ids are entry names of that directory.
    - Text is a [string] of 8-bit code points; file contents are lists of
      bytes.
    - [uuid.uuid4()], the MD5 digest, the transport and the disk faults of
      the assembly are inputs of the model: the handlers and the client are
      functions of them.  The disk fails nowhere else, and file names follow
      the rules of the file systems of Linux. *)

From stdpp Require Import gmap strings list fin_maps sorting.
From Stdlib Require Import ZArith Lia Strings.Byte Strings.Ascii.
From Stdlib Require Import Floats.PrimFloat.

Open Scope Z_scope.

Abbreviation bytes := (list byte).

(** ** Text helpers *)

Module Text.

Definition is_slash (c : ascii) : bool := bool_decide (c = "/"%char).

Fixpoint has_slash (s : string) : bool :=
  match s with
  | EmptyString => false
  | String c r => is_slash c || has_slash r
  end.

Definition NUL : ascii := ascii_of_nat 0.

Definition is_nul (c : ascii) : bool := bool_decide (c = NUL).

Fixpoint has_nul (s : string) : bool :=
  match s with
  | EmptyString => false
  | String c r => is_nul c || has_nul r
  end.

(** The bytes of a code point in UTF-8: one below 128, two above. *)
Definition utf8_width (c : ascii) : Z :=
  if Z.of_N (N_of_ascii c) <? 128 then 1 else 2.

(** The number of bytes of the UTF-8 encoding. *)
Fixpoint utf8_length (s : string) : Z :=
  match s with
  | EmptyString => 0
  | String c r => utf8_width c + utf8_length r
  end.

(** [os.path.basename]: what follows the last slash. *)
Fixpoint basename (p : string) : string :=
  match p with
  | EmptyString => EmptyString
  | String c r =>
      if has_slash r then basename r
      else if is_slash c then r else p
  end.

(** [str.isspace] on the code points below 256. *)
Definition is_space (c : ascii) : bool :=
  let n := Z.of_N (N_of_ascii c) in
  ((9 <=? n) && (n <=? 13)) || ((28 <=? n) && (n <=? 32))
  || (n =? 133) || (n =? 160).

Fixpoint lstrip (s : string) : string :=
  match s with
  | EmptyString => EmptyString
  | String c r => if is_space c then lstrip r else s
  end.

Fixpoint rstrip (s : string) : string :=
  match s with
  | EmptyString => EmptyString
  | String c r =>
      match rstrip r with
      | EmptyString => if is_space c then EmptyString else String c EmptyString
      | r' => String c r'
      end
  end.

(** [str.strip()] *)
Definition strip (s : string) : string := rstrip (lstrip s).

Definition CR : ascii := ascii_of_nat 13.
Definition LF : ascii := ascii_of_nat 10.

(** Reading a file opened in text mode: a carriage return, alone or before
    a line feed, comes back as one line feed. *)
Fixpoint read_text (s : string) : string :=
  match s with
  | EmptyString => EmptyString
  | String c r =>
      if bool_decide (c = CR) then
        match r with
        | String c' r' =>
            if bool_decide (c' = LF) then String LF (read_text r')
            else String LF (read_text r)
        | EmptyString => String LF EmptyString
        end
      else String c (read_text r)
  end.

(** Python's [x or default] on strings. *)
Definition str_or (s default : string) : string :=
  match s with EmptyString => default | _ => s end.

End Text.

(** ** Byte ranges *)

Fixpoint takeZ {A} (n : Z) (l : list A) : list A :=
  match l with
  | [] => []
  | x :: l' => if n <=? 0 then [] else x :: takeZ (n - 1) l'
  end.

Fixpoint dropZ {A} (n : Z) (l : list A) : list A :=
  match l with
  | [] => []
  | _ :: l' => if n <=? 0 then l else dropZ (n - 1) l'
  end.

(** ** The chunk server ([upload_server.py]) *)

Module Server.

Definition CHUNK_SIZE : Z := 10 * 1024 * 1024.

(** A session directory. *)
Record session := Session {
  meta_filename : string;      (* content of meta_filename.txt *)
  parts : gmap Z bytes         (* chunk_<index>.part |-> content *)
}.

Inductive node :=
  | Dir (s : session)
  | File (content : bytes).

(** The content of [UPLOAD_ROOT]. *)
Abbreviation store := (gmap string node).

Inductive response :=
  | InitiateResponse (upload_id : string) (chunk_size : Z)
  | StatusResponse (uploaded_chunks : list Z)
  | ChunkResponse (index : Z)
  | CompleteResponse (final_path : string)
  | HTTPError (status_code : Z).

Definition set_parts (s : session) (p : gmap Z bytes) : session :=
  {| meta_filename := meta_filename s; parts := p |}.

(** [POST /upload/initiate]; [uid] is the value of [str(uuid.uuid4())].
    [os.makedirs(d, exist_ok=True)] keeps a directory that is already
    there and raises on a regular file. *)
Definition initiate (uid filename : string) (fs : store) : response * store :=
  match fs !! uid with
  | Some (File _) => (HTTPError 500, fs)
  | Some (Dir s) =>
      (InitiateResponse uid CHUNK_SIZE,
       <[uid := Dir {| meta_filename := filename; parts := parts s |}]> fs)
  | None =>
      (InitiateResponse uid CHUNK_SIZE,
       <[uid := Dir {| meta_filename := filename; parts := ∅ |}]> fs)
  end.

Definition idx_le {A} (x y : Z * A) : Prop := x.1 ≤ y.1.

Global Instance idx_le_dec {A} (x y : Z * A) : Decision (idx_le x y) :=
  decide (x.1 ≤ y.1).

(** The chunk files of a session directory, sorted by index. *)
Definition sorted_chunks (s : session) : list (Z * bytes) :=
  merge_sort idx_le (map_to_list (parts s)).

(** [GET /upload/{upload_id}/status] *)
Definition status (upload_id : string) (fs : store) : response :=
  match fs !! upload_id with
  | None => HTTPError 404
  | Some (File _) => HTTPError 500
  | Some (Dir s) => StatusResponse ((sorted_chunks s).*1)
  end.

(** The body of a chunk request is read in blocks of 1 MiB and written
    block by block. *)
Definition BLOCK : Z := 1024 * 1024.

Fixpoint copy_blocks (fuel : nat) (body out : bytes) : bytes :=
  match fuel with
  | O => out
  | S fuel' =>
      match takeZ BLOCK body with
      | [] => out
      | chunk => copy_blocks fuel' (dropZ BLOCK body) (out ++ chunk)
      end
  end.

Definition write_body (body : bytes) : bytes :=
  copy_blocks (S (length body)) body [].

(** [PUT /upload/{upload_id}/chunk/{index}] *)
Definition upload_chunk (upload_id : string) (index : Z) (body : bytes)
    (fs : store) : response * store :=
  match fs !! upload_id with
  | None => (HTTPError 404, fs)
  | Some (File _) => (HTTPError 500, fs)
  | Some (Dir s) =>
      (ChunkResponse index,
       <[upload_id := Dir (set_parts s (<[index := write_body body]> (parts s)))]> fs)
  end.

(** The name of the assembled file inside [UPLOAD_ROOT]. *)
Definition final_name (upload_id original_name : string) : string :=
  upload_id +:+ "__" +:+ original_name.

Definition original_name (s : session) : string :=
  Text.str_or (Text.strip (Text.read_text (meta_filename s))) "assembled.bin".

(** The longest file name, in bytes, of the file systems of Linux. *)
Definition NAME_MAX : Z := 255.

(** A name under which a file can be made inside [UPLOAD_ROOT]: [open]
    raises on a NUL, on a name longer than [NAME_MAX] bytes, and on a slash,
    which points into a directory [<upload_id>__...] that [UPLOAD_ROOT] does
    not hold (its directories are the sessions, named by [uuid4]). *)
Definition valid_name (name : string) : bool :=
  negb (Text.has_slash name) && negb (Text.has_nul name) &&
  (Text.utf8_length name <=? NAME_MAX).

(** [open(final_path, "wb")] succeeds on a valid name that is not the name
    of a directory. *)
Definition can_create (name : string) (fs : store) : bool :=
  valid_name name &&
  match fs !! name with Some (Dir _) => false | _ => true end.

(** [shutil.COPY_BUFSIZE] *)
Definition COPY_BUFSIZE : Z := 64 * 1024.

(** [shutil.copyfileobj(pf, out_f)]: blocks of [COPY_BUFSIZE] bytes are read
    and written until a read returns nothing.  [fault j = Some n] says that
    the copy raises at block [j], the output then holding the blocks before
    it and [n] bytes of block [j] ([n = 0] when it is the read that raises,
    or, for the first block, the opening of the chunk file). *)
Fixpoint copyfileobj (fuel : nat) (fault : nat → option Z) (j : nat)
    (src out : bytes) : bool * bytes :=
  match fuel with
  | O => (true, out)
  | S fuel' =>
      let buf := takeZ COPY_BUFSIZE src in
      match fault j with
      | Some n => (false, out ++ takeZ n buf)
      | None =>
          match buf with
          | [] => (true, out)
          | _ =>
              copyfileobj fuel' fault (S j) (dropZ COPY_BUFSIZE src) (out ++ buf)
          end
      end
  end.

(** The copy loop of [complete]: [fault k j] is the fault, if any, at block
    [j] of the [k]-th chunk file; the bytes written before an exception stay
    in the output. *)
Fixpoint assemble (fault : nat → nat → option Z) (k : nat)
    (chunk_files : list (Z * bytes)) (out : bytes) : bool * bytes :=
  match chunk_files with
  | [] => (true, out)
  | (_, part) :: rest =>
      match copyfileobj (S (length part)) (fault k) 0 part out with
      | (true, out') => assemble fault (S k) rest out'
      | (false, out') => (false, out')
      end
  end.

(** [POST /upload/{upload_id}/complete] *)
Definition complete_io (fault : nat → nat → option Z) (upload_id : string)
    (fs : store) : response * store :=
  match fs !! upload_id with
  | None => (HTTPError 404, fs)
  | Some (File _) => (HTTPError 500, fs)
  | Some (Dir s) =>
      match sorted_chunks s with
      | [] => (HTTPError 400, fs)
      | chunk_files =>
          let final := final_name upload_id (original_name s) in
          if can_create final fs then
            let '(ok, out) := assemble fault 0 chunk_files [] in
            let fs1 := <[final := File out]> fs in
            if ok then (CompleteResponse final, delete upload_id fs1)
            else (HTTPError 500, fs1)
          else (HTTPError 500, fs)
      end
  end.

Definition no_fault : nat → nat → option Z := λ _ _, None.

Definition complete : string → store → response * store := complete_io no_fault.

(** The stored chunk of an index, empty when there is none. *)
Definition chunk_of (s : session) (i : Z) : bytes := default [] (parts s !! i).

(** The shape of [str(uuid.uuid4())]: 36 characters, none of them an
    underscore or a slash. *)
Definition is_hex (c : ascii) : bool :=
  let n := Z.of_N (N_of_ascii c) in
  ((48 <=? n) && (n <=? 57)) || ((97 <=? n) && (n <=? 102)).

Fixpoint uuid_chars (pos : nat) (s : string) : bool :=
  match s with
  | EmptyString => true
  | String c r =>
      (if bool_decide (pos ∈ [8; 13; 18; 23]%nat) then bool_decide (c = "-"%char)
       else is_hex c) && uuid_chars (S pos) r
  end.

Definition uuid_shaped (s : string) : bool :=
  bool_decide (String.length s = 36%nat) && uuid_chars 0 s.

End Server.

(** ** The onboard uploader ([onboard/uploader.py]) *)

Module Uploader.

Import Server.

(** The default of [info.get("chunk_size", CHUNK_SIZE)]; the server always
    sends a chunk size, so the default is never taken. *)
Definition CHUNK_SIZE : Z := 10 * 1024 * 1024.

Definition RETRY_BACKOFF : list Z := [1; 2; 5; 10].

(** The progress record kept next to the source file. *)
Record Meta := {
  upload_id : string;
  chunk_size : Z;
  file_size : Z;
  filename : string;
  file_md5 : string
}.

(** A JSON document as [json.load] decodes it: [None], a [bool], an [int],
    a [float], a [str], a [list], or a [dict] given by its members in the
    order of the text. *)
#[warnings="-register-all"]
Inductive json :=
  | JNull
  | JBool (b : bool)
  | JInt (n : Z)
  | JFloat (x : float)
  | JStr (s : string)
  | JList (items : list json)
  | JDict (members : list (string * json)).

(** The value under a key of a decoded object: of two members with the same
    key the later one counts. *)
Fixpoint member (key : string) (members : list (string * json))
    : option json :=
  match members with
  | [] => None
  | (k, v) :: rest =>
      match member key rest with
      | Some v' => Some v'
      | None => if bool_decide (k = key) then Some v else None
      end
  end.

(** Python's truth test. *)
Definition truthy (v : json) : bool :=
  match v with
  | JNull => false
  | JBool b => b
  | JInt n => negb (n =? 0)
  | JFloat x => negb (PrimFloat.eqb x 0%float)
  | JStr s => match s with EmptyString => false | _ => true end
  | JList items => match items with [] => false | _ => true end
  | JDict members => match members with [] => false | _ => true end
  end.

(** An object that holds the three keys a run reads back. *)
Definition has_record_keys (v : json) : bool :=
  match v with
  | JDict members =>
      bool_decide (is_Some (member "upload_id" members)) &&
      bool_decide (is_Some (member "chunk_size" members)) &&
      bool_decide (is_Some (member "file_md5" members))
  | _ => false
  end.

(** The progress file [<file>.uploadmeta.json]: missing, holding text that
    [json.load] rejects, holding a record as [save_meta] writes it (an
    object with a text [upload_id], an integer [chunk_size] and a text
    [file_md5]), or holding any other document: a value that is not an
    object, or an object that lacks one of these three keys. *)
Inductive meta_file :=
  | Absent
  | Garbled
  | Stored (m : Meta)
  | Holds (v : json) (other : has_record_keys v = false).

Inductive exn :=
  | JSONDecodeError
  | RequestException
  | ZeroDivisionError
  | OSError
  | ValueError
  | AttributeError
  | KeyError.

(** What a run returns: a boolean, or an exception nobody caught. *)
Inductive result :=
  | Return (ok : bool)
  | Raised (e : exn).

Inductive request :=
  | Initiate (filename : string)
  | Status (upload_id : string)
  | PutChunk (upload_id : string) (index : Z) (data : bytes)
  | Complete (upload_id : string).

(** What the client does that can be seen from outside. *)
Inductive event :=
  | Sent (r : request)
  | Sleep (seconds : Z).

(** The transport: a request is answered, lost before it reaches the
    server, or handled by the server with the answer lost. *)
Inductive link := Deliver | DropRequest | DropReply.

(** The requests of one run, as the transport tells them apart. *)
Inductive op :=
  | OpInitiate
  | OpStatus
  | OpChunk (index : Z) (attempt : nat)
  | OpComplete.

Record env := {
  net : op → link;
  uuid4 : string               (* the id the server draws at initiation *)
}.

Record world := {
  srv : store;
  metaf : meta_file;
  trace : list event
}.

Definition log (e : event) (w : world) : world :=
  {| srv := srv w; metaf := metaf w; trace := trace w ++ [e] |}.

Definition set_srv (fs : store) (w : world) : world :=
  {| srv := fs; metaf := metaf w; trace := trace w |}.

Definition set_metaf (m : meta_file) (w : world) : world :=
  {| srv := srv w; metaf := m; trace := trace w |}.

(** What [json.load] returned, when it is not [None]. *)
Inductive document :=
  | Record (m : Meta)
  | Other (v : json).

(** [load_meta]: [None] without a file, else what [json.load] gives, which
    is [None] for the document [null]; nothing is caught. *)
Definition load_meta (f : meta_file) : exn + option document :=
  match f with
  | Absent => inr None
  | Garbled => inl JSONDecodeError
  | Stored m => inr (Some (Record m))
  | Holds JNull _ => inr None
  | Holds v _ => inr (Some (Other v))
  end.

(** [bool(meta)] *)
Definition truth (d : document) : bool :=
  match d with
  | Record _ => true
  | Other v => truthy v
  end.

(** [meta.get("file_md5") != file_md5]; only a [dict] has [get]. *)
Definition file_md5_differs (d : document) (digest : string) : exn + bool :=
  match d with
  | Record m => inr (bool_decide (file_md5 m ≠ digest))
  | Other (JDict members) =>
      inr (match member "file_md5" members with
           | Some (JStr h) => bool_decide (h ≠ digest)
           | _ => true
           end)
  | Other _ => inl AttributeError
  end.

(** [meta["upload_id"]] and [meta["chunk_size"]]: an object that is not a
    record and holds the checksum lacks one of the two keys. *)
Definition subscripts (d : document) : exn + Meta :=
  match d with
  | Record m => inr m
  | Other _ => inl KeyError
  end.

(** [save_meta] *)
Definition save_meta (m : Meta) (w : world) : world := set_metaf (Stored m) w.

(** [os.remove(meta_path)] inside [try ... except: pass] *)
Definition remove_meta (w : world) : world := set_metaf Absent w.

(** The routes of the server. *)
Definition serve (uuid : string) (r : request) (fs : store) : response * store :=
  match r with
  | Initiate name => initiate uuid name fs
  | Status uid => (status uid fs, fs)
  | PutChunk uid index data => upload_chunk uid index data fs
  | Complete uid => complete uid fs
  end.

(** [f.seek(offset); f.read(n)] on the source file: a negative offset and a
    length below -1 raise, the length -1 reads to the end. *)
Definition read_at (data : bytes) (offset n : Z) : exn + bytes :=
  if offset <? 0 then inl OSError
  else if n <? -1 then inl ValueError
  else if n =? -1 then inr (dropZ offset data)
  else inr (takeZ n (dropZ offset data)).

Section Run.

Variable md5_of_file : bytes → string.
Variable E : env.

(** One HTTP exchange; [None] is a [requests] exception raised before any
    status line was read. *)
Definition http (o : op) (r : request) (w : world) : option response * world :=
  let w1 := log (Sent r) w in
  match net E o with
  | DropRequest => (None, w1)
  | Deliver =>
      let '(resp, fs) := serve (uuid4 E) r (srv w1) in (Some resp, set_srv fs w1)
  | DropReply =>
      let '(_, fs) := serve (uuid4 E) r (srv w1) in (None, set_srv fs w1)
  end.

(** [initiate_upload] *)
Definition initiate_upload (name : string) (w : world)
    : (exn + string * Z) * world :=
  match http OpInitiate (Initiate name) w with
  | (Some (InitiateResponse uid size), w') => (inr (uid, size), w')
  | (_, w') => (inl RequestException, w')
  end.

(** [get_uploaded_chunks] *)
Definition get_uploaded_chunks (uid : string) (w : world)
    : (exn + list Z) * world :=
  match http OpStatus (Status uid) w with
  | (Some (HTTPError code), w') =>
      if code =? 404 then (inr [], w') else (inl RequestException, w')
  | (Some (StatusResponse uploaded), w') => (inr uploaded, w')
  | (_, w') => (inl RequestException, w')
  end.

(** [upload_chunk]: [true] when the request went through. *)
Definition upload_chunk (uid : string) (index : Z) (attempt : nat)
    (data : bytes) (w : world) : bool * world :=
  match http (OpChunk index attempt) (PutChunk uid index data) w with
  | (Some (ChunkResponse _), w') => (true, w')
  | (_, w') => (false, w')
  end.

(** [complete_upload] *)
Definition complete_upload (uid : string) (w : world) : bool * world :=
  match http OpComplete (Complete uid) w with
  | (Some (CompleteResponse _), w') => (true, w')
  | (_, w') => (false, w')
  end.

(** The branch [if not meta] of [run_upload]: initiate and store the new
    record. *)
Definition begin_session (name : string) (digest : string) (size : Z)
    (w : world) : (exn + Meta) * world :=
  match initiate_upload name w with
  | (inl e, w') => (inl e, w')
  | (inr (uid, size'), w') =>
      let m := {| upload_id := uid; chunk_size := size';
                  file_size := size; filename := name;
                  file_md5 := digest |} in
      (inr m, save_meta m w')
  end.

(** The start of [run_upload]: load the record, drop it when the file
    changed, initiate when there is none. *)
Definition open_session (name : string) (digest : string) (size : Z)
    (w : world) : (exn + Meta) * world :=
  match load_meta (metaf w) with
  | inl e => (inl e, w)
  | inr loaded =>
      (* if meta and meta.get("file_md5") != file_md5 *)
      let dropped :=
        match loaded with
        | Some d => if truth d then file_md5_differs d digest else inr false
        | None => inr false
        end in
      match dropped with
      | inl e => (inl e, w)
      | inr stale =>
          let '(meta, w1) :=
            if stale then (None, remove_meta w) else (loaded, w) in
          (* if not meta *)
          match meta with
          | Some d =>
              if truth d then
                match subscripts d with
                | inl e => (inl e, w1)
                | inr m => (inr m, w1)
                end
              else begin_session name digest size w1
          | None => begin_session name digest size w1
          end
      end
  end.

(** How the chunk loop ends: it ran out of indices (or met the end of the
    file), it returned [False], or it raised. *)
Inductive loop_exit :=
  | Exhausted
  | Stopped
  | Crashed (e : exn).

Section Loop.

Variable meta : Meta.
Variable data : bytes.
Variable max_chunks : option Z.

(** The retry loop over [enumerate(RETRY_BACKOFF, start=1)] with its
    [else] branch. *)
Fixpoint send_chunk (idx : Z) (chunk_data : bytes) (attempt : nat)
    (schedule : list Z) (w : world) : bool * world :=
  match schedule with
  | [] => (false, w)
  | backoff :: later =>
      match upload_chunk (upload_id meta) idx attempt chunk_data w with
      | (true, w') => (true, save_meta meta w')
      | (false, w') =>
          send_chunk idx chunk_data (S attempt) later (log (Sleep backoff) w')
      end
  end.

Definition cap_reached (chunks_sent : Z) : bool :=
  match max_chunks with
  | Some cap => cap <=? chunks_sent
  | None => false
  end.

(** [for idx in range(total_chunks)] *)
Fixpoint upload_loop (indices : list Z) (uploaded : gset Z) (chunks_sent : Z)
    (w : world) : loop_exit * world :=
  match indices with
  | [] => (Exhausted, w)
  | idx :: rest =>
      if bool_decide (idx ∈ uploaded) then
        upload_loop rest uploaded chunks_sent w
      else if cap_reached chunks_sent then (Stopped, w)
      else
        match read_at data (idx * chunk_size meta) (chunk_size meta) with
        | inl e => (Crashed e, w)
        | inr [] => (Exhausted, w)
        | inr chunk_data =>
            match send_chunk idx chunk_data 1 RETRY_BACKOFF w with
            | (true, w') =>
                upload_loop rest ({[idx]} ∪ uploaded) (chunks_sent + 1) w'
            | (false, w') => (Stopped, w')
            end
        end
  end.

End Loop.

Definition total_chunks (size chunk : Z) : Z := (size + chunk - 1) `div` chunk.

(** The body of [run_upload] once the progress record is settled. *)
Definition transfer (meta : Meta) (data : bytes) (max_chunks : option Z)
    (w1 : world) : result * world :=
  let size := Z.of_nat (length data) in
  if chunk_size meta =? 0 then (Raised ZeroDivisionError, w1)
  else
    let total := total_chunks size (chunk_size meta) in
    let '(uploaded, w2) :=
      match get_uploaded_chunks (upload_id meta) w1 with
      | (inr l, w') => (list_to_set l : gset Z, w')
      | (inl _, w') => (∅, w')
      end in
    match upload_loop meta data max_chunks (seqZ 0 total) uploaded 0 w2 with
    | (Crashed e, w3) => (Raised e, w3)
    | (Stopped, w3) => (Return false, w3)
    | (Exhausted, w3) =>
        match complete_upload (upload_id meta) w3 with
        | (true, w4) => (Return true, remove_meta w4)
        | (false, w4) => (Return false, w4)
        end
    end.

(** [run_upload] on the file at [file_path], whose content is [data]. *)
Definition run_upload (file_path : string) (data : bytes)
    (max_chunks : option Z) (w : world) : result * world :=
  let size := Z.of_nat (length data) in
  let name := Text.basename file_path in
  let digest := md5_of_file data in
  match open_session name digest size w with
  | (inl e, w1) => (Raised e, w1)
  | (inr meta, w1) => transfer meta data max_chunks w1
  end.

End Run.

(** ** Notions used in the statements

    What follows is not code of the uploader: these are the notions in
    which its runs are described. *)

(** The bytes of chunk [i] of a file cut in chunks of [c] bytes. *)
Definition slice (data : bytes) (c i : Z) : bytes :=
  takeZ c (dropZ (i * c) data).

(** The events of a chunk whose every attempt fails. *)
Definition retry_block (uid : string) (idx : Z) (chunk : bytes) : list event :=
  RETRY_BACKOFF ≫= λ backoff, [Sent (PutChunk uid idx chunk); Sleep backoff].

Definition is_put (idx : Z) (e : event) : bool :=
  match e with
  | Sent (PutChunk _ i _) => bool_decide (i = idx)
  | _ => false
  end.

(** How many times chunk [idx] was sent. *)
Definition attempts (idx : Z) (tr : list event) : nat :=
  length (filter (λ e, is_put idx e = true) tr).

Definition is_complete (e : event) : bool :=
  match e with Sent (Complete _) => true | _ => false end.

Definition is_initiate (e : event) : bool :=
  match e with Sent (Initiate _) => true | _ => false end.

(** The session a request is addressed to. *)
Definition target (e : event) : option string :=
  match e with
  | Sent (Status uid) | Sent (PutChunk uid _ _) | Sent (Complete uid) => Some uid
  | _ => None
  end.

(** The stores reached from [fs] by chunk requests that carry, for session
    [uid], bytes read from [data] at the index they name. *)
Inductive fed_from (data : bytes) (c : Z) (uid : string) (fs : store)
    : store → Prop :=
  | fed_refl : fed_from data c uid fs fs
  | fed_put fs1 i b :
      fed_from data c uid fs fs1 →
      read_at data (i * c) c = inr b →
      fed_from data c uid fs (Server.upload_chunk uid i b fs1).2.

(** The events the chunk loop can log while it walks the indices [idxs]. *)
Definition loop_event (data : bytes) (c : Z) (uid : string) (idxs : list Z)
    (e : event) : Prop :=
  match e with
  | Sent (PutChunk u i b) =>
      u = uid ∧ i ∈ idxs ∧ read_at data (i * c) c = inr b
  | Sleep _ => True
  | _ => False
  end.

(** What holds of every run of the chunk loop over [idxs] from [w] that
    ends with [r]: it sends chunks of the file to its session only, each
    index at most once per entry of the schedule, and an index that was sent
    and is never delivered stops the loop after its last attempt. *)
Definition loop_post (E : env) (meta : Meta) (data : bytes) (idxs : list Z)
    (w : world) (r : loop_exit * world) : Prop :=
  let uid := upload_id meta in
  let c := chunk_size meta in
  ∃ tr, trace r.2 = trace w ++ tr ∧
    Forall (loop_event data c uid idxs) tr ∧
    fed_from data c uid (srv w) (srv r.2) ∧
    (metaf r.2 = metaf w ∨ metaf r.2 = Stored meta) ∧
    (∀ i, (attempts i tr ≤ length RETRY_BACKOFF)%nat) ∧
    (∀ idx, (∀ k, net E (OpChunk idx k) ≠ Deliver) →
            attempts idx tr ≠ 0%nat →
            r.1 = Stopped ∧
            ∃ pre b, tr = pre ++ retry_block uid idx b ∧
                     Forall (λ e, ∀ j, is_put j e = true → j < idx) pre).

(** What holds of [transfer] from [w] when it ends with [r], whatever the
    transport does. *)
Definition transfer_post (E : env) (meta : Meta) (data : bytes)
    (w : world) (r : result * world) : Prop :=
  let uid := upload_id meta in
  let c := chunk_size meta in
  ∃ tr, trace r.2 = trace w ++ tr ∧
    Forall (λ e, is_initiate e = false ∧
                 (target e = None ∨ target e = Some uid)) tr ∧
    (∃ fs, fed_from data c uid (srv w) fs ∧
           (srv r.2 = fs ∨ srv r.2 = (complete uid fs).2)) ∧
    (metaf r.2 = metaf w ∨ metaf r.2 = Stored meta ∨
     (metaf r.2 = Absent ∧ r.1 = Return true)) ∧
    (∀ i, (attempts i tr ≤ length RETRY_BACKOFF)%nat) ∧
    (∀ idx, (∀ k, net E (OpChunk idx k) ≠ Deliver) →
            attempts idx tr ≠ 0%nat →
            r.1 = Return false ∧
            (metaf r.2 = metaf w ∨ metaf r.2 = Stored meta) ∧
            ∃ pre b, tr = pre ++ retry_block uid idx b ∧
                     Forall (λ e, is_complete e = false ∧
                                  ∀ j, is_put j e = true → j < idx) pre).

(** The indices the loop has to send. *)
Definition missing (uploaded : gset Z) (idxs : list Z) : list Z :=
  filter (λ i, i ∉ uploaded) idxs.

(** The missing indices a run may send before [--max-chunks] stops it, when
    [sent] chunks were sent already. *)
Definition allowed (cap : option Z) (sent : Z) (todo : list Z) : list Z :=
  match cap with
  | None => todo
  | Some k => take (Z.to_nat (k - sent)) todo
  end.

(** The indices a run takes as accepted: those the server holds when the
    status query is answered, none when it is not. *)
Definition seen (E : env) (s : session) : gset Z :=
  match net E OpStatus with
  | Deliver => dom (parts s)
  | _ => ∅
  end.

(** The chunk requests for the indices [l], in that order. *)
Definition puts (uid : string) (data : bytes) (c : Z) (l : list Z)
    : list event :=
  (λ i, Sent (PutChunk uid i (slice data c i))) <$> l.

(** Directories of [UPLOAD_ROOT] are created by [initiate] only. *)
Definition wf_store (fs : store) : Prop :=
  ∀ name s, fs !! name = Some (Dir s) → uuid_shaped name = true.

End Uploader.

Import Server Uploader.

(** ** Statements under test and sample states *)

(** The completeness gate: with an index of [0, total) missing, completion
    answers an error. *)
Definition completeness_gate (uid : string) (fs : store) (total : Z) : Prop :=
  ∀ s, fs !! uid = Some (Dir s) →
       (∃ i, 0 ≤ i < total ∧ parts s !! i = None) →
       ∃ code, (complete uid fs).1 = HTTPError code.

(** Atomic exposure: after a completion request the final location is as it
    was before, or holds the whole concatenation. *)
Definition never_partial (fault : nat → nat → option Z) (uid : string)
    (fs : store) : Prop :=
  ∀ s, fs !! uid = Some (Dir s) →
       let final := final_name uid (original_name s) in
       let after := (complete_io fault uid fs).2 in
       after !! final = fs !! final ∨
       after !! final = Some (File (mjoin ((sorted_chunks s).*2))).

(** Scenario C: a file of at most one chunk has one chunk and its upload
    succeeds. *)
Definition small_file_claim (md5 : bytes → string) (E : env)
    (file_path : string) (data : bytes) (w : world) : Prop :=
  Z.of_nat (length data) ≤ Server.CHUNK_SIZE →
  total_chunks (Z.of_nat (length data)) Server.CHUNK_SIZE = 1 ∧
  (run_upload md5 E file_path data None w).1 = Return true.

(** A progress file that cannot be decoded counts as no record and is not
    fatal. *)
Definition garbled_is_fresh_start (md5 : bytes → string) (E : env)
    (file_path : string) (data : bytes) (cap : option Z) (w : world) : Prop :=
  metaf w = Garbled →
  load_meta (metaf w) = inr None ∧
  ∀ e, (run_upload md5 E file_path data cap w).1 ≠ Raised e.


(** A sequence of requests, each with the id [uuid4] would draw if the
    request were an initiation, served one after the other. *)
Definition replay (rs : list (string * request)) (fs : store) : store :=
  foldl (λ acc ur, (serve ur.1 ur.2 acc).2) fs rs.

(** Chunk requests for one session, served in the order of the list. *)
Definition upload_all (uid : string) (l : list (Z * bytes)) (fs : store)
    : store :=
  foldl (λ acc ib, (Server.upload_chunk uid ib.1 ib.2 acc).2) fs l.

(** The chunks [bs] of a file, numbered from 0, taken in the order
    [order]. *)
Definition numbered (bs : list bytes) (order : list nat) : list (Z * bytes) :=
  (λ k, (Z.of_nat k, default [] (bs !! k))) <$> order.

(** A file name that the text mode and [strip] leave as it is: it is not
    empty, holds no carriage return, and neither starts nor ends with
    whitespace. *)
Fixpoint has_cr (s : string) : bool :=
  match s with
  | EmptyString => false
  | String c r => bool_decide (c = Text.CR) || has_cr r
  end.

Fixpoint last_char (c : ascii) (s : string) : ascii :=
  match s with
  | EmptyString => c
  | String c' r => last_char c' r
  end.

Definition plain_name (s : string) : bool :=
  match s with
  | EmptyString => false
  | String c r =>
      negb (Text.is_space c) && negb (Text.is_space (last_char c r)) &&
      negb (has_cr s)
  end.

(** Text made of whitespace only. *)
Fixpoint all_space (s : string) : bool :=
  match s with
  | EmptyString => true
  | String c r => Text.is_space c && all_space r
  end.

(** ** The resume demonstration ([backend/demo_upload_resume.py]) *)

Module Demo.

(** Steps 2 and 3 of [main]: the uploader is run on the sample file with
    [--max-chunks 3], then once more without a cap.  Each run has its own
    transport; the result is what the two runs returned and the world they
    leave. *)
Definition main_uploads (md5 : bytes → string) (E1 E2 : env)
    (file_path : string) (data : bytes) (w : world)
    : result * result * world :=
  let r1 := run_upload md5 E1 file_path data (Some 3) w in
  let r2 := run_upload md5 E2 file_path data None r1.2 in
  (r1.1, r2.1, r2.2).

End Demo.

Module Sample.

Definition uid1 : string := "123e4567-e89b-42d3-a456-426614174000".
Definition uid2 : string := "9b2f0c1e-5a77-4d0b-8f3e-0a1b2c3d4e5f".

(** A stand-in for the digest: the bytes themselves, as text. *)
Definition digest (d : bytes) : string := String.string_of_list_byte d.

(** A transport that delivers everything. *)
Definition delivering : env := {|
  net := λ _, Deliver;
  uuid4 := "123e4567-e89b-42d3-a456-426614174000"
|}.

(** A transport that loses every attempt at chunk 1. *)
Definition losing_chunk_1 : env := {|
  net := λ o, match o with
              | OpChunk 1 _ => DropRequest
              | _ => Deliver
              end;
  uuid4 := "123e4567-e89b-42d3-a456-426614174000"
|}.

Definition abc : bytes := ["a"; "b"; "c"]%byte.

(** Nothing on the server, no progress file. *)
Definition blank : world := {| srv := ∅; metaf := Absent; trace := [] |}.

(** Nothing on the server, an unreadable progress file. *)
Definition garbled : world := {| srv := ∅; metaf := Garbled; trace := [] |}.


Definition record_of (uid : string) (c : Z) (d : bytes) : Meta := {|
  upload_id := uid; chunk_size := c; file_size := Z.of_nat (length d);
  filename := "f.bin"; file_md5 := digest d
|}.

(** The record and the server after a run over [abc], cut in chunks of two
    bytes, that stopped after chunk 0. *)
Definition interrupted : world := {|
  srv := {[ "9b2f0c1e-5a77-4d0b-8f3e-0a1b2c3d4e5f" :=
              Dir {| meta_filename := "f.bin";
                     parts := {[ 0 := ["a"; "b"]%byte ]} |} ]};
  metaf := Stored (record_of "9b2f0c1e-5a77-4d0b-8f3e-0a1b2c3d4e5f" 2 abc);
  trace := []
|}.

(** The same record after the file was replaced by other bytes. *)
Definition stale : world := {|
  srv := srv interrupted;
  metaf := Stored (record_of "9b2f0c1e-5a77-4d0b-8f3e-0a1b2c3d4e5f" 2
                     ["x"; "y"; "z"]%byte);
  trace := []
|}.

(** An empty session on the server and the record of a file cut in chunks
    of two bytes. *)
Definition started : world := {|
  srv := {[ uid2 := Dir {| meta_filename := "f.bin"; parts := ∅ |} ]};
  metaf := Stored (record_of uid2 2 abc);
  trace := []
|}.


Definition session_of (l : list (Z * bytes)) : session :=
  {| meta_filename := "f.bin"; parts := list_to_map l |}.

(** Indices 0 and 2 of a three-chunk upload: index 1 is missing. *)
Definition gap_store : store :=
  {[ uid1 := Dir (session_of [(0, ["x"%byte]); (2, ["z"%byte])]) ]}.

(** Both chunks of a two-chunk upload. *)
Definition full_store : store :=
  {[ uid1 := Dir (session_of [(0, ["x"%byte]); (1, ["y"%byte])]) ]}.

(** Three chunks of a file and an order of arrival. *)
Definition three_chunks : list bytes :=
  [["a"; "b"]; ["c"; "d"]; ["e"]]%byte.
Definition shuffled : list nat := [2; 0; 1]%nat.

(** A transport that loses the request of the first attempt at a chunk and
    the reply of the second. *)
Definition flaky : env := {|
  net := λ o, match o with
              | OpChunk _ 1%nat => DropRequest
              | OpChunk _ 2%nat => DropReply
              | _ => Deliver
              end;
  uuid4 := uid1
|}.


(** One byte more than three chunks. *)
Definition four_chunks : bytes :=
  replicate (Z.to_nat (3 * Server.CHUNK_SIZE + 1)) "a"%byte.

(** Opening the second chunk file raises. *)
Definition fault_at_1 : nat → nat → option Z :=
  λ k j, if bool_decide (k = 1%nat ∧ j = 0%nat) then Some 0 else None.

(** Two chunks of two bytes. *)
Definition wide_store : store :=
  {[ uid1 := Dir (session_of [(0, ["a"; "b"]%byte); (1, ["c"; "d"]%byte)]) ]}.

(** Writing the first block of the second chunk file raises after one
    byte. *)
Definition fault_mid : nat → nat → option Z :=
  λ k j, if bool_decide (k = 1%nat ∧ j = 0%nat) then Some 1 else None.

(** A progress file that holds [null], and one that holds an object
    without the keys of a record. *)
Definition holding_null : world :=
  {| srv := ∅; metaf := Holds JNull eq_refl; trace := [] |}.
Definition holding_object : world :=
  {| srv := ∅; metaf := Holds (JDict [("a", JInt 1)]) eq_refl; trace := [] |}.

End Sample.

(** * Facts *)

(** ** Byte ranges *)

Section Ranges.

Context {A : Type}.
Implicit Types l : list A.

Lemma takeZ_take n l : takeZ n l = take (Z.to_nat n) l.
Proof.
  revert n. induction l as [|x l IH]; intros n; simpl.
  - by rewrite take_nil.
  - destruct (Z.leb_spec n 0) as [Hn|Hn].
    + by replace (Z.to_nat n) with 0%nat by lia.
    + replace (Z.to_nat n) with (S (Z.to_nat (n - 1))) by lia.
      simpl. by rewrite IH.
Qed.

Lemma dropZ_drop n l : dropZ n l = drop (Z.to_nat n) l.
Proof.
  revert n. induction l as [|x l IH]; intros n; simpl.
  - by rewrite drop_nil.
  - destruct (Z.leb_spec n 0) as [Hn|Hn].
    + by replace (Z.to_nat n) with 0%nat by lia.
    + replace (Z.to_nat n) with (S (Z.to_nat (n - 1))) by lia.
      simpl. by rewrite IH.
Qed.

Lemma takeZ_dropZ n l : takeZ n l ++ dropZ n l = l.
Proof. rewrite takeZ_take, dropZ_drop. apply take_drop. Qed.

Lemma takeZ_nil_inv n l : 0 < n → takeZ n l = [] → l = [].
Proof.
  intros Hn. destruct l as [|x l]; simpl; [done|].
  destruct (Z.leb_spec n 0); [lia | done].
Qed.

Lemma dropZ_shorter n l :
  0 < n → l ≠ [] → (length (dropZ n l) < length l)%nat.
Proof.
  intros Hn Hl. rewrite dropZ_drop, length_drop.
  destruct l; [done | simpl; lia].
Qed.

Lemma takeZ_all n l : Z.of_nat (length l) ≤ n → takeZ n l = l.
Proof. intros Hn. rewrite takeZ_take. apply take_ge. lia. Qed.

Lemma dropZ_all n l : Z.of_nat (length l) ≤ n → dropZ n l = [].
Proof. intros Hn. rewrite dropZ_drop. apply drop_ge. lia. Qed.

Lemma dropZ_0 l : dropZ 0 l = l.
Proof. by rewrite dropZ_drop. Qed.

Lemma takeZ_add a b l :
  0 ≤ a → 0 ≤ b → takeZ (a + b) l = takeZ a l ++ takeZ b (dropZ a l).
Proof.
  intros Ha Hb. rewrite !takeZ_take, dropZ_drop, take_take_drop.
  f_equal. lia.
Qed.

Lemma dropZ_dropZ a b l :
  0 ≤ a → 0 ≤ b → dropZ b (dropZ a l) = dropZ (a + b) l.
Proof.
  intros Ha Hb. rewrite !dropZ_drop, drop_drop. f_equal. lia.
Qed.

Lemma dropZ_nonempty n l :
  0 ≤ n → n < Z.of_nat (length l) → dropZ n l ≠ [].
Proof.
  intros Hn Hlen Hnil. apply (f_equal length) in Hnil.
  rewrite dropZ_drop, length_drop in Hnil. simpl in Hnil. lia.
Qed.

End Ranges.

(** ** The server *)

Lemma copy_blocks_spec fuel body out :
  (length body < fuel)%nat → copy_blocks fuel body out = out ++ body.
Proof.
  revert body out. induction fuel as [|fuel IH]; intros body out Hlen; [lia|].
  simpl. destruct (takeZ BLOCK body) as [|b chunk] eqn:Hchunk.
  - apply takeZ_nil_inv in Hchunk; [|done]. subst. by rewrite app_nil_r.
  - rewrite IH.
    + rewrite <- Hchunk, <- app_assoc. by rewrite takeZ_dropZ.
    + assert (body ≠ []) by (intros ->; done).
      pose proof (dropZ_shorter BLOCK body ltac:(done) ltac:(done)). lia.
Qed.

(** The block-wise copy of a request body stores the body. *)
Lemma write_body_id body : write_body body = body.
Proof. unfold write_body. rewrite copy_blocks_spec; [done | lia]. Qed.

Global Instance idx_le_trans {A} : Transitive (@idx_le A).
Proof. intros x y z. unfold idx_le. lia. Qed.

Global Instance idx_le_total {A} : Total (@idx_le A).
Proof. intros x y. unfold idx_le. lia. Qed.

Lemma sorted_chunks_perm s : sorted_chunks s ≡ₚ map_to_list (parts s).
Proof. apply merge_sort_Permutation. Qed.

Lemma sorted_chunks_sorted s : StronglySorted idx_le (sorted_chunks s).
Proof. apply StronglySorted_merge_sort; apply _. Qed.

Lemma sorted_chunks_nil s : sorted_chunks s = [] ↔ parts s = ∅.
Proof.
  rewrite <- map_to_list_empty_iff. split; intros H.
  - apply Permutation_nil_r. rewrite <- H. symmetry. apply sorted_chunks_perm.
  - apply Permutation_nil_r. rewrite <- H. apply sorted_chunks_perm.
Qed.

Lemma elem_of_sorted_chunks s i c :
  (i, c) ∈ sorted_chunks s ↔ parts s !! i = Some c.
Proof. rewrite sorted_chunks_perm. apply elem_of_map_to_list. Qed.

Lemma seqZ_sorted m n : StronglySorted Z.lt (seqZ m n).
Proof.
  destruct (Z.le_gt_cases n 0) as [Hn|Hn].
  { unfold seqZ. replace (Z.to_nat n) with 0%nat by lia. constructor. }
  rewrite <- (Z2Nat.id n) by lia. generalize (Z.to_nat n) as k. clear.
  intros k. revert m. induction k as [|k IH]; intros m.
  - constructor.
  - rewrite seqZ_cons by lia. constructor.
    + replace (Z.pred (Z.of_nat (S k))) with (Z.of_nat k) by lia. apply IH.
    + apply Forall_forall. intros x Hx. apply elem_of_seqZ in Hx. lia.
Qed.

(** When the stored indices are exactly [0, n), sorting the directory lists
    them as 0, 1, ..., n-1. *)
Lemma sorted_chunks_range s n :
  (∀ i, is_Some (parts s !! i) ↔ 0 ≤ i < n) →
  sorted_chunks s = (λ i, (i, chunk_of s i)) <$> seqZ 0 n.
Proof.
  intros Hdom. apply (StronglySorted_unique_strong idx_le).
  - intros [i c] [j d] Hi Hj Hle1 Hle2. unfold idx_le in *. simpl in *.
    assert (i = j) as -> by lia.
    apply elem_of_sorted_chunks in Hi.
    apply list_elem_of_fmap in Hj as (k & [= -> ->] & _).
    unfold chunk_of. by rewrite Hi.
  - apply sorted_chunks_sorted.
  - apply (StronglySorted_fmap _ Z.lt); [|apply seqZ_sorted].
    intros x y Hxy. unfold idx_le. simpl. lia.
  - rewrite sorted_chunks_perm. apply NoDup_Permutation.
    + apply NoDup_map_to_list.
    + apply NoDup_fmap_2; [|apply NoDup_seqZ]. intros x y [= ->]. done.
    + intros [i c]. rewrite elem_of_map_to_list, list_elem_of_fmap. split.
      * intros Hi. exists i. unfold chunk_of. rewrite Hi. split; [done|].
        apply elem_of_seqZ. assert (is_Some (parts s !! i)) as Hs by eauto.
        apply Hdom in Hs. lia.
      * intros (k & [= -> ->] & Hk). apply elem_of_seqZ in Hk.
        unfold chunk_of. destruct (Hdom k) as [_ [c Hc]]; [lia|].
        by rewrite Hc.
Qed.

Lemma sorted_le_nodup_lt (l : list Z) :
  StronglySorted Z.le l → NoDup l → StronglySorted Z.lt l.
Proof.
  induction 1 as [|x l Hs IH Hall]; intros Hnd; [constructor|].
  apply NoDup_cons in Hnd as [Hx Hnd]. constructor; [by apply IH|].
  rewrite Forall_forall in Hall. apply Forall_forall. intros y Hy.
  specialize (Hall y Hy). assert (x ≠ y) by (intros ->; done). lia.
Qed.

(** The chunk files of a session in the order of assembly: the indices
    ascend strictly, they are the indices stored, and each comes with its
    chunk. *)
Lemma sorted_chunks_ascending s :
  ∃ idxs, StronglySorted Z.lt idxs ∧
          (∀ i, i ∈ idxs ↔ is_Some (parts s !! i)) ∧
          sorted_chunks s = (λ i, (i, chunk_of s i)) <$> idxs.
Proof.
  exists ((sorted_chunks s).*1). split; [|split].
  - apply sorted_le_nodup_lt.
    + apply (StronglySorted_fmap _ idx_le); [done | apply sorted_chunks_sorted].
    + rewrite sorted_chunks_perm. apply NoDup_fst_map_to_list.
  - intros i. rewrite list_elem_of_fmap. split.
    + intros ([j b] & -> & Hin). apply elem_of_sorted_chunks in Hin.
      by eexists.
    + intros [b Hb]. exists (i, b). split; [done|].
      by apply elem_of_sorted_chunks.
  - rewrite <- list_fmap_compose.
    rewrite <- (list_fmap_id (sorted_chunks s)) at 1.
    apply list_fmap_ext. intros n [i b] Hn. simpl.
    apply list_elem_of_lookup_2, elem_of_sorted_chunks in Hn.
    unfold chunk_of. by rewrite Hn.
Qed.

Lemma takeZ_takeZ {A} (n m : Z) (l : list A) :
  takeZ n (takeZ m l) = takeZ (Z.min n m) l.
Proof.
  rewrite !takeZ_take, take_take. f_equal. lia.
Qed.

(** Without a fault the block-wise copy appends the source. *)
Lemma copyfileobj_no_fault fuel fault j src out :
  (∀ i, fault i = None) → (length src < fuel)%nat →
  copyfileobj fuel fault j src out = (true, out ++ src).
Proof.
  intros Hf. revert j src out.
  induction fuel as [|fuel IH]; intros j src out Hlen; [lia|].
  cbn [copyfileobj]. rewrite Hf.
  destruct (takeZ COPY_BUFSIZE src) as [|b buf] eqn:Hbuf.
  - apply takeZ_nil_inv in Hbuf; [|done]. subst. by rewrite app_nil_r.
  - rewrite IH.
    + rewrite <- Hbuf, <- app_assoc. by rewrite takeZ_dropZ.
    + assert (src ≠ []) by (intros ->; done).
      pose proof (dropZ_shorter COPY_BUFSIZE src ltac:(done) ltac:(done)). lia.
Qed.

(** A fault at block [jf], the blocks before it copied: the output holds
    those blocks and the bytes of block [jf] that got through. *)
Lemma copyfileobj_fault fuel fault j (jf : nat) n src out :
  fault (j + jf)%nat = Some n →
  (∀ i, (i < jf)%nat → fault (j + i)%nat = None) →
  (Z.of_nat jf - 1) * COPY_BUFSIZE < Z.of_nat (length src) →
  0 ≤ n ≤ COPY_BUFSIZE →
  (length src < fuel)%nat →
  copyfileobj fuel fault j src out
  = (false, out ++ takeZ (Z.of_nat jf * COPY_BUFSIZE + n) src).
Proof.
  revert fuel j src out.
  induction jf as [|jf IH]; intros fuel j src out Hf Hbefore Hreach Hn Hlen.
  - destruct fuel as [|fuel]; [lia|]. cbn [copyfileobj].
    replace (j + 0)%nat with j in Hf by lia. rewrite Hf.
    rewrite takeZ_takeZ. do 3 f_equal. lia.
  - destruct fuel as [|fuel]; [lia|]. cbn [copyfileobj].
    rewrite <- (Nat.add_0_r j) at 1. rewrite (Hbefore 0%nat) by lia.
    assert (0 < Z.of_nat (length src)) as Hpos
      by (unfold COPY_BUFSIZE in *; lia).
    destruct (takeZ COPY_BUFSIZE src) as [|b buf] eqn:Hbuf.
    { apply takeZ_nil_inv in Hbuf; [|done]. subst. simpl in Hpos. lia. }
    assert (src ≠ []) as Hne by (intros ->; done).
    pose proof (dropZ_shorter COPY_BUFSIZE src ltac:(done) Hne) as Hshort.
    rewrite (IH fuel (S j) (dropZ COPY_BUFSIZE src) (out ++ b :: buf) ).
    + rewrite <- Hbuf, <- app_assoc. do 2 f_equal.
      replace (Z.of_nat (S jf) * COPY_BUFSIZE + n)
        with (COPY_BUFSIZE + (Z.of_nat jf * COPY_BUFSIZE + n)) by lia.
      symmetry. apply takeZ_add; unfold COPY_BUFSIZE in *; lia.
    + by replace (S j + jf)%nat with (j + S jf)%nat by lia.
    + intros i Hi. replace (S j + i)%nat with (j + S i)%nat by lia.
      apply Hbefore. lia.
    + rewrite dropZ_drop, length_drop. unfold COPY_BUFSIZE in *. lia.
    + lia.
    + lia.
Qed.

Lemma assemble_no_fault j chunk_files out :
  assemble no_fault j chunk_files out = (true, out ++ mjoin (chunk_files.*2)).
Proof.
  revert j out. induction chunk_files as [|[i c] l IH]; intros j out;
    cbn [assemble].
  - simpl. by rewrite app_nil_r.
  - rewrite copyfileobj_no_fault by (done || lia).
    rewrite IH. simpl. by rewrite <- app_assoc.
Qed.

(** The first fault stops the copy and leaves what was written before it:
    the chunk files before the [k]-th whole, and of the [k]-th the blocks
    before the fault and the bytes of the faulty block that got through. *)
Lemma assemble_fault fault (k jf : nat) n j chunk_files part out :
  chunk_files.*2 !! k = Some part →
  fault (j + k)%nat jf = Some n →
  (∀ i j', (i < k)%nat → fault (j + i)%nat j' = None) →
  (∀ j', (j' < jf)%nat → fault (j + k)%nat j' = None) →
  (Z.of_nat jf - 1) * COPY_BUFSIZE < Z.of_nat (length part) →
  0 ≤ n ≤ COPY_BUFSIZE →
  assemble fault j chunk_files out
  = (false, out ++ mjoin (take k (chunk_files.*2))
              ++ takeZ (Z.of_nat jf * COPY_BUFSIZE + n) part).
Proof.
  revert j chunk_files out.
  induction k as [|k IH]; intros j l out Hpart Hf Hparts Hblocks Hreach Hn.
  - destruct l as [|[i c] l]; [done|]. simpl in Hpart. injection Hpart as ->.
    cbn [assemble]. replace (j + 0)%nat with j in * by lia.
    rewrite (copyfileobj_fault _ (fault j) 0 jf n part out Hf Hblocks Hreach Hn)
      by lia.
    by rewrite take_0.
  - destruct l as [|[i c] l]; [done|]. simpl in Hpart.
    cbn [assemble]. rewrite copyfileobj_no_fault.
    + rewrite (IH (S j) l (out ++ c) Hpart); try done.
      * simpl. by rewrite <- !app_assoc.
      * by replace (S j + k)%nat with (j + S k)%nat by lia.
      * intros i' j' Hi. replace (S j + i')%nat with (j + S i')%nat by lia.
        apply Hparts. lia.
      * intros j' Hj. replace (S j + k)%nat with (j + S k)%nat by lia.
        by apply Hblocks.
    + intros j'. rewrite <- (Nat.add_0_r j). apply Hparts. lia.
    + lia.
Qed.

Lemma length_append (a b : string) :
  String.length (a +:+ b) = (String.length a + String.length b)%nat.
Proof. induction a as [|c a IH]; simpl; [done | by rewrite IH]. Qed.

Lemma append_same_length_inj (u1 u2 a b : string) :
  String.length u1 = String.length u2 → u1 +:+ a = u2 +:+ b → u1 = u2.
Proof.
  revert u2. induction u1 as [|c u1 IH]; intros [|c2 u2] Hlen Heq;
    simpl in *; try done.
  injection Heq as -> Heq. f_equal. apply IH; [lia | done].
Qed.

Lemma final_name_ne uid name : final_name uid name ≠ uid.
Proof.
  intros H. apply (f_equal String.length) in H.
  unfold final_name in H. rewrite !length_append in H. simpl in H. lia.
Qed.

Lemma uuid_shaped_length u : uuid_shaped u = true → String.length u = 36%nat.
Proof.
  unfold uuid_shaped. intros H. apply andb_prop in H as [H _].
  by apply bool_decide_eq_true in H.
Qed.

(** Two ids drawn by the server never give the same artifact name. *)
Lemma final_name_distinct u1 u2 n1 n2 :
  uuid_shaped u1 = true → uuid_shaped u2 = true → u1 ≠ u2 →
  final_name u1 n1 ≠ final_name u2 n2.
Proof.
  intros H1 H2 Hne Heq. apply Hne. unfold final_name in Heq.
  eapply append_same_length_inj; [|exact Heq].
  by rewrite !uuid_shaped_length.
Qed.

(** What [complete] does on a session directory that holds a chunk. *)
Lemma complete_io_dir fault uid fs s :
  fs !! uid = Some (Dir s) →
  parts s ≠ ∅ →
  can_create (final_name uid (original_name s)) fs = true →
  complete_io fault uid fs =
    let final := final_name uid (original_name s) in
    let r := assemble fault 0 (sorted_chunks s) [] in
    if r.1 then (CompleteResponse final, delete uid (<[final := File r.2]> fs))
    else (HTTPError 500, <[final := File r.2]> fs).
Proof.
  intros Hs Hne Hcan. unfold complete_io. rewrite Hs.
  destruct (sorted_chunks s) as [|x l] eqn:Hl.
  { apply sorted_chunks_nil in Hl. done. }
  rewrite Hcan. by destruct (assemble fault 0 (x :: l) []) as [[] out].
Qed.

Lemma complete_dir uid fs s :
  fs !! uid = Some (Dir s) →
  parts s ≠ ∅ →
  can_create (final_name uid (original_name s)) fs = true →
  complete uid fs =
    (CompleteResponse (final_name uid (original_name s)),
     delete uid (<[final_name uid (original_name s)
                   := File (mjoin ((sorted_chunks s).*2))]> fs)).
Proof.
  intros Hs Hne Hcan. unfold complete.
  rewrite (complete_io_dir _ _ _ _ Hs Hne Hcan). simpl.
  by rewrite assemble_no_fault.
Qed.

Lemma complete_empty_dir uid fs s :
  fs !! uid = Some (Dir s) → parts s = ∅ →
  complete uid fs = (HTTPError 400, fs).
Proof.
  intros Hs He. unfold complete, complete_io. rewrite Hs.
  apply sorted_chunks_nil in He. by rewrite He.
Qed.

Lemma complete_cases_wf uid fs :
  (complete uid fs).2 = fs ∨
  ∃ final out, (complete uid fs).2 = delete uid (<[final := File out]> fs).
Proof.
  unfold complete, complete_io.
  destruct (fs !! uid) as [[s|x]|] eqn:H1; try by left.
  destruct (sorted_chunks s) as [|p l]; [by left|].
  destruct (can_create _ fs); [|by left].
  rewrite assemble_no_fault. simpl. right. by eexists _, _.
Qed.

(** ** Names inside [UPLOAD_ROOT] *)

Lemma has_slash_append a b :
  Text.has_slash (a +:+ b) = Text.has_slash a || Text.has_slash b.
Proof.
  induction a as [|c a IH]; simpl; [done|]. rewrite IH.
  by destruct (Text.is_slash c).
Qed.

Lemma has_slash_basename p : Text.has_slash (Text.basename p) = false.
Proof.
  induction p as [|c p IH]; simpl; [done|].
  destruct (Text.has_slash p) eqn:Hp; [done|].
  destruct (Text.is_slash c) eqn:Hc; [done|]. simpl. by rewrite Hc, Hp.
Qed.

Lemma has_slash_lstrip s :
  Text.has_slash s = false → Text.has_slash (Text.lstrip s) = false.
Proof.
  induction s as [|c s IH]; simpl; [done|]. intros H.
  apply orb_false_iff in H as [Hc Hs].
  destruct (Text.is_space c); [by apply IH|]. simpl. by rewrite Hc, Hs.
Qed.

Lemma has_slash_rstrip s :
  Text.has_slash s = false → Text.has_slash (Text.rstrip s) = false.
Proof.
  induction s as [|c s IH]; simpl; [done|]. intros H.
  apply orb_false_iff in H as [Hc Hs]. specialize (IH Hs).
  destruct (Text.rstrip s) as [|c' s'].
  - destruct (Text.is_space c); [done|]. simpl. by rewrite Hc.
  - cbn [Text.has_slash]. cbn [Text.has_slash] in IH. by rewrite Hc, IH.
Qed.

Lemma has_slash_read_text_upto (n : nat) s :
  (String.length s ≤ n)%nat →
  Text.has_slash s = false → Text.has_slash (Text.read_text s) = false.
Proof.
  revert s. induction n as [|n IH]; intros [|c s] Hlen; try done.
  { simpl in Hlen. lia. }
  cbn [Text.has_slash Text.read_text]. simpl in Hlen.
  intros H. apply orb_false_iff in H as [Hc Hs].
  case_bool_decide as Hcr.
  - destruct s as [|c' s']; [done|].
    cbn [Text.has_slash] in Hs. apply orb_false_iff in Hs as [Hc' Hs'].
    simpl in Hlen. case_bool_decide; cbn [Text.has_slash].
    + rewrite (IH s'); [done | lia | done].
    + rewrite (IH (String c' s')); [done | simpl; lia |].
      cbn [Text.has_slash]. by rewrite Hc', Hs'.
  - cbn [Text.has_slash]. rewrite Hc, (IH s); [done | lia | done].
Qed.

Lemma has_slash_read_text s :
  Text.has_slash s = false → Text.has_slash (Text.read_text s) = false.
Proof. by apply (has_slash_read_text_upto (String.length s)). Qed.

Lemma has_slash_original_name s :
  Text.has_slash (meta_filename s) = false →
  Text.has_slash (original_name s) = false.
Proof.
  intros H. unfold original_name, Text.strip.
  pose proof (has_slash_rstrip _ (has_slash_lstrip _ (has_slash_read_text _ H)))
    as Hs.
  by destruct (Text.rstrip _).
Qed.

Lemma uuid_chars_no_slash pos s :
  uuid_chars pos s = true → Text.has_slash s = false.
Proof.
  revert pos. induction s as [|c s IH]; intros pos; simpl; [done|].
  intros H. apply andb_prop in H as [Hc Hs]. rewrite (IH _ Hs).
  rewrite orb_false_r. unfold Text.is_slash. apply bool_decide_eq_false.
  intros ->. by case_bool_decide.
Qed.

Lemma has_nul_append a b :
  Text.has_nul (a +:+ b) = Text.has_nul a || Text.has_nul b.
Proof.
  induction a as [|c a IH]; simpl; [done|]. rewrite IH.
  by destruct (Text.is_nul c).
Qed.

Lemma has_nul_lstrip s :
  Text.has_nul s = false → Text.has_nul (Text.lstrip s) = false.
Proof.
  induction s as [|c s IH]; simpl; [done|]. intros H.
  apply orb_false_iff in H as [Hc Hs].
  destruct (Text.is_space c); [by apply IH|]. simpl. by rewrite Hc, Hs.
Qed.

Lemma has_nul_rstrip s :
  Text.has_nul s = false → Text.has_nul (Text.rstrip s) = false.
Proof.
  induction s as [|c s IH]; simpl; [done|]. intros H.
  apply orb_false_iff in H as [Hc Hs]. specialize (IH Hs).
  destruct (Text.rstrip s) as [|c' s'].
  - destruct (Text.is_space c); [done|]. simpl. by rewrite Hc.
  - cbn [Text.has_nul]. cbn [Text.has_nul] in IH. by rewrite Hc, IH.
Qed.

Lemma has_nul_read_text_upto (n : nat) s :
  (String.length s ≤ n)%nat →
  Text.has_nul s = false → Text.has_nul (Text.read_text s) = false.
Proof.
  revert s. induction n as [|n IH]; intros [|c s] Hlen; try done.
  { simpl in Hlen. lia. }
  cbn [Text.has_nul Text.read_text]. simpl in Hlen.
  intros H. apply orb_false_iff in H as [Hc Hs].
  case_bool_decide as Hcr.
  - destruct s as [|c' s']; [done|].
    cbn [Text.has_nul] in Hs. apply orb_false_iff in Hs as [Hc' Hs'].
    simpl in Hlen. case_bool_decide; cbn [Text.has_nul].
    + rewrite (IH s'); [done | lia | done].
    + rewrite (IH (String c' s')); [done | simpl; lia |].
      cbn [Text.has_nul]. by rewrite Hc', Hs'.
  - cbn [Text.has_nul]. rewrite Hc, (IH s); [done | lia | done].
Qed.

Lemma has_nul_original_name s :
  Text.has_nul (meta_filename s) = false →
  Text.has_nul (original_name s) = false.
Proof.
  intros H. unfold original_name, Text.strip.
  pose proof (has_nul_rstrip _ (has_nul_lstrip _
    (has_nul_read_text_upto _ _ (Nat.le_refl _) H))) as Hs.
  by destruct (Text.rstrip _).
Qed.

Lemma utf8_width_pos c : 1 ≤ Text.utf8_width c.
Proof. unfold Text.utf8_width. destruct (_ <? _); lia. Qed.

Lemma utf8_length_nonneg s : 0 ≤ Text.utf8_length s.
Proof.
  induction s as [|c s IH]; simpl; [done|].
  pose proof (utf8_width_pos c). lia.
Qed.

Lemma utf8_length_append a b :
  Text.utf8_length (a +:+ b) = Text.utf8_length a + Text.utf8_length b.
Proof. induction a as [|c a IH]; simpl; [done|]. rewrite IH. lia. Qed.

Lemma utf8_length_lstrip s :
  Text.utf8_length (Text.lstrip s) ≤ Text.utf8_length s.
Proof.
  induction s as [|c s IH]; simpl; [done|].
  pose proof (utf8_width_pos c).
  destruct (Text.is_space c); simpl; lia.
Qed.

Lemma utf8_length_rstrip s :
  Text.utf8_length (Text.rstrip s) ≤ Text.utf8_length s.
Proof.
  induction s as [|c s IH]; simpl; [done|].
  pose proof (utf8_width_pos c). pose proof (utf8_length_nonneg s).
  destruct (Text.rstrip s) as [|c' s'].
  - destruct (Text.is_space c); simpl; lia.
  - cbn [Text.utf8_length] in *. lia.
Qed.

Lemma utf8_length_read_text_upto (n : nat) s :
  (String.length s ≤ n)%nat →
  Text.utf8_length (Text.read_text s) ≤ Text.utf8_length s.
Proof.
  revert s. induction n as [|n IH]; intros [|c s] Hlen; try done.
  { simpl in Hlen. lia. }
  cbn [Text.utf8_length Text.read_text]. simpl in Hlen.
  case_bool_decide as Hcr.
  - subst c. change (Text.utf8_width Text.CR) with 1.
    destruct s as [|c' s']; [done|].
    simpl in Hlen. pose proof (utf8_width_pos c').
    case_bool_decide; cbn [Text.utf8_length];
      change (Text.utf8_width Text.LF) with 1.
    + pose proof (IH s' ltac:(lia)). lia.
    + pose proof (IH (String c' s') ltac:(simpl; lia)) as H'.
      cbn [Text.utf8_length] in H'. lia.
  - cbn [Text.utf8_length]. pose proof (IH s ltac:(lia)). lia.
Qed.

Lemma utf8_length_original_name s :
  Text.utf8_length (original_name s)
  ≤ Z.max 13 (Text.utf8_length (meta_filename s)).
Proof.
  unfold original_name, Text.strip.
  pose proof (utf8_length_read_text_upto _ (meta_filename s) (Nat.le_refl _)).
  pose proof (utf8_length_lstrip (Text.read_text (meta_filename s))).
  pose proof (utf8_length_rstrip
                (Text.lstrip (Text.read_text (meta_filename s)))).
  destruct (Text.rstrip _); simpl Text.str_or.
  - change (Text.utf8_length "assembled.bin") with 13. lia.
  - lia.
Qed.

(** The characters of an id drawn by [uuid4] take one byte each, and none
    is a NUL. *)
Lemma uuid_chars_ascii pos s :
  uuid_chars pos s = true →
  Text.utf8_length s = Z.of_nat (String.length s) ∧ Text.has_nul s = false.
Proof.
  revert pos. induction s as [|c s IH]; intros pos; [done|].
  cbn [uuid_chars Text.utf8_length Text.has_nul String.length].
  intros H. apply andb_prop in H as [Hc Hs].
  destruct (IH _ Hs) as [-> ->].
  assert (Text.utf8_width c = 1 ∧ Text.is_nul c = false) as [-> ->].
  { case_bool_decide.
    - apply bool_decide_eq_true in Hc. by subst c.
    - unfold is_hex in Hc. unfold Text.utf8_width, Text.is_nul.
      split.
      + destruct (Z.ltb_spec (Z.of_N (N_of_ascii c)) 128); [done|].
        rewrite orb_true_iff, !andb_true_iff, !Z.leb_le in Hc. lia.
      + apply bool_decide_eq_false. intros ->.
        vm_compute in Hc. discriminate. }
  split; [lia | done].
Qed.

(** In a store whose directories were all made by [initiate], the artifact
    of a session can be created as soon as its name is a valid file
    name. *)
Lemma can_create_wf fs uid name :
  wf_store fs → uuid_shaped uid = true →
  valid_name (final_name uid name) = true →
  can_create (final_name uid name) fs = true.
Proof.
  intros Hwf Huid Hname. unfold can_create. rewrite Hname. simpl.
  destruct (fs !! final_name uid name) as [[s'|b]|] eqn:Hl; try done.
  apply Hwf, uuid_shaped_length in Hl. apply uuid_shaped_length in Huid.
  unfold final_name in Hl. rewrite !length_append in Hl. simpl in Hl. lia.
Qed.

(** The artifact name of a session whose id was drawn by [uuid4] is valid
    when the stored file name has no slash and no NUL and is short
    enough. *)
Lemma valid_name_session uid s :
  uuid_shaped uid = true →
  Text.has_slash (meta_filename s) = false →
  Text.has_nul (meta_filename s) = false →
  Text.utf8_length (meta_filename s) ≤ NAME_MAX - 38 →
  valid_name (final_name uid (original_name s)) = true.
Proof.
  intros Huid Hslash Hnul Hlen. unfold valid_name, final_name.
  pose proof (uuid_shaped_length _ Huid) as H36.
  unfold uuid_shaped in Huid. apply andb_prop in Huid as [_ Huid].
  destruct (uuid_chars_ascii _ _ Huid) as [Hw Hn].
  rewrite !has_slash_append, !has_nul_append, !utf8_length_append.
  rewrite (has_slash_original_name s Hslash), (has_nul_original_name s Hnul).
  rewrite (uuid_chars_no_slash _ _ Huid), Hn, Hw, H36. simpl.
  apply Z.leb_le. pose proof (utf8_length_original_name s).
  change (Text.utf8_width "_") with 1. unfold NAME_MAX in *. lia.
Qed.

(** The handlers keep the store well formed. *)
Lemma serve_wf uuid r fs :
  wf_store fs → uuid_shaped uuid = true → wf_store (serve uuid r fs).2.
Proof.
  intros Hwf Huuid. destruct r as [name|uid|uid i b|uid]; simpl.
  - unfold initiate.
    destruct (fs !! uuid) as [[s|b]|]; simpl; try done;
      intros k s' Hk; (destruct (decide (k = uuid)) as [->|Hne];
        [done | rewrite lookup_insert_ne in Hk by done; by eapply Hwf]).
  - done.
  - unfold Server.upload_chunk.
    destruct (fs !! uid) as [[s|x]|] eqn:Hs; simpl; try done.
    intros k s' Hk. destruct (decide (k = uid)) as [->|Hne].
    + by eapply Hwf.
    + rewrite lookup_insert_ne in Hk by done. by eapply Hwf.
  - destruct (complete_cases_wf uid fs) as [-> | (final & out & ->)]; [done|].
    intros k s' Hk. apply lookup_delete_Some in Hk as [Hne Hk].
    destruct (decide (k = final)) as [->|Hne'].
    + by rewrite lookup_insert_eq in Hk.
    + rewrite lookup_insert_ne in Hk by done. by eapply Hwf.
Qed.

(** ** Completion *)

(** C1, as stated, fails: with indices 0 and 2 stored and index 1 of
    [0, 3) missing, completion answers 200 and assembles the two chunks. *)
Lemma completeness_gate_counterexample :
  ¬ completeness_gate Sample.uid1 Sample.gap_store 3.
Proof.
  intros H.
  destruct (H (Sample.session_of [(0, ["x"%byte]); (2, ["z"%byte])]))
    as [code Hcode].
  - reflexivity.
  - exists 1. split; [lia | reflexivity].
  - vm_compute in Hcode. discriminate.
Qed.

(** C1 (amended): the server keeps no chunk count and checks no gap; on a
    session directory completion answers 400 exactly when no chunk is
    stored.  With a chunk stored it assembles whatever chunks are stored, in
    strictly ascending order of their indices, and succeeds when the
    artifact file can be created; the session directory is then removed. *)
Theorem complete_rejects_only_empty uid fs s :
  fs !! uid = Some (Dir s) →
  let final := uid +:+ "__" +:+ original_name s in
  ((complete uid fs).1 = HTTPError 400 ↔ parts s = ∅) ∧
  (parts s = ∅ → complete uid fs = (HTTPError 400, fs)) ∧
  (parts s ≠ ∅ → can_create final fs = true →
     ∃ idxs, StronglySorted Z.lt idxs ∧
             (∀ i, i ∈ idxs ↔ is_Some (parts s !! i)) ∧
             complete uid fs
             = (CompleteResponse final,
                delete uid
                  (<[final := File (mjoin (chunk_of s <$> idxs))]> fs))).
Proof.
  intros Hs final. split; [|split].
  - split.
    + intros H400. destruct (decide (parts s = ∅)) as [|Hne]; [done|].
      exfalso. unfold complete, complete_io in H400. rewrite Hs in H400.
      destruct (sorted_chunks s) as [|x l] eqn:Hl.
      { by apply sorted_chunks_nil in Hl. }
      destruct (can_create _ fs); [|discriminate].
      rewrite assemble_no_fault in H400. discriminate.
    + intros He. by rewrite (complete_empty_dir _ _ _ Hs He).
  - by apply complete_empty_dir.
  - intros Hne Hcan.
    destruct (sorted_chunks_ascending s) as (idxs & Hsorted & Hdom & Heq).
    exists idxs. split; [done|]. split; [done|].
    rewrite (complete_dir _ _ _ Hs Hne Hcan). do 4 f_equal.
    rewrite Heq, <- list_fmap_compose. done.
Qed.

Lemma complete_rejects_only_empty_witness :
  Sample.gap_store !! Sample.uid1
    = Some (Dir (Sample.session_of [(0, ["x"%byte]); (2, ["z"%byte])])) ∧
  ∃ idxs, StronglySorted Z.lt idxs ∧
    complete Sample.uid1 Sample.gap_store
    = (CompleteResponse "123e4567-e89b-42d3-a456-426614174000__f.bin",
       delete Sample.uid1
         (<["123e4567-e89b-42d3-a456-426614174000__f.bin" :=
              File (mjoin (chunk_of
                (Sample.session_of [(0, ["x"%byte]); (2, ["z"%byte])])
                <$> idxs))]> Sample.gap_store)).
Proof.
  split; [reflexivity|].
  destruct (complete_rejects_only_empty Sample.uid1 Sample.gap_store
    (Sample.session_of [(0, ["x"%byte]); (2, ["z"%byte])]) eq_refl)
    as (_ & _ & Hrun).
  destruct Hrun as (idxs & Hsorted & _ & Hrun).
  - vm_compute. discriminate.
  - vm_compute. reflexivity.
  - exists idxs. split; [exact Hsorted | exact Hrun].
Defined.


Lemma read_text_no_cr s : has_cr s = false → Text.read_text s = s.
Proof.
  induction s as [|c s IH]; [done|]. cbn [has_cr Text.read_text].
  intros H. apply orb_false_iff in H as [Hc Hs]. rewrite Hc.
  by rewrite (IH Hs).
Qed.

Lemma rstrip_last c r :
  Text.is_space (last_char c r) = false →
  Text.rstrip (String c r) = String c r.
Proof.
  revert c. induction r as [|c' r IH]; intros c Hlast.
  - simpl in *. by rewrite Hlast.
  - cbn [Text.rstrip]. cbn [last_char] in Hlast.
    change (Text.rstrip (String c' r)) with
      (match Text.rstrip r with
       | EmptyString =>
           if Text.is_space c' then EmptyString else String c' EmptyString
       | r' => String c' r'
       end).
    specialize (IH c' Hlast). cbn [Text.rstrip] in IH. by rewrite IH.
Qed.

(** A plain file name is stored and read back as it is. *)
Lemma original_name_plain s :
  plain_name (meta_filename s) = true → original_name s = meta_filename s.
Proof.
  unfold original_name, Text.strip, plain_name.
  destruct (meta_filename s) as [|c r] eqn:Hname; [done|].
  intros H. apply andb_prop in H as [H Hcr]. apply andb_prop in H as [Hc Hl].
  apply negb_true_iff in Hcr, Hc, Hl.
  rewrite (read_text_no_cr _ Hcr). cbn [Text.lstrip]. rewrite Hc.
  by rewrite (rstrip_last c r Hl).
Qed.

(** C4: a successful completion of a session whose stored indices are
    0..n-1 leaves the concatenation of the chunks 0, 1, ..., n-1 in that
    order under the name made of the upload id, two underscores and the
    stored file name (stripped, or [assembled.bin] when that is empty; a
    plain file name is kept as it is); names built in this way from two
    different ids drawn by [uuid4] differ. *)
Theorem complete_concatenates uid fs s n final fs' :
  fs !! uid = Some (Dir s) →
  1 ≤ n →
  (∀ i, is_Some (parts s !! i) ↔ 0 ≤ i < n) →
  complete uid fs = (CompleteResponse final, fs') →
  final = uid +:+ "__" +:+
          Text.str_or (Text.strip (Text.read_text (meta_filename s)))
            "assembled.bin" ∧
  (plain_name (meta_filename s) = true →
   final = uid +:+ "__" +:+ meta_filename s) ∧
  fs' !! final = Some (File (mjoin (chunk_of s <$> seqZ 0 n))) ∧
  (∀ uid' name', uuid_shaped uid = true → uuid_shaped uid' = true →
                 uid' ≠ uid → uid' +:+ "__" +:+ name' ≠ final).
Proof.
  intros Hs Hn Hdom Hdone.
  assert (parts s ≠ ∅) as Hne.
  { intros He. destruct (Hdom 0) as [_ [c Hc]]; [lia|].
    rewrite He in Hc. by rewrite lookup_empty in Hc. }
  assert (can_create (final_name uid (original_name s)) fs = true) as Hcan.
  { unfold complete, complete_io in Hdone. rewrite Hs in Hdone.
    destruct (sorted_chunks s) eqn:Hl; [done|].
    destruct (can_create _ fs); [done | discriminate]. }
  rewrite (complete_dir _ _ _ Hs Hne Hcan) in Hdone.
  injection Hdone as <- <-. split; [done|]. split; [|split].
  - intros Hplain. unfold final_name. by rewrite (original_name_plain s Hplain).
  - rewrite lookup_delete_ne by (intros ?; by eapply final_name_ne).
    rewrite lookup_insert_eq. do 2 f_equal.
    rewrite (sorted_chunks_range s n Hdom).
    rewrite <- list_fmap_compose. done.
  - intros uid' name' H1 H2 Hne'.
    by apply (final_name_distinct uid' uid name' (original_name s)).
Qed.

Lemma complete_concatenates_witness :
  complete Sample.uid1 Sample.full_store
    = (CompleteResponse "123e4567-e89b-42d3-a456-426614174000__f.bin",
       {[ "123e4567-e89b-42d3-a456-426614174000__f.bin"
            := File ["x"%byte; "y"%byte] ]}) ∧
  "123e4567-e89b-42d3-a456-426614174000__f.bin"
    = Sample.uid1 +:+ "__" +:+ "f.bin" ∧
  ({[ "123e4567-e89b-42d3-a456-426614174000__f.bin"
        := File ["x"%byte; "y"%byte] ]} : store)
    !! "123e4567-e89b-42d3-a456-426614174000__f.bin"
  = Some (File (mjoin (chunk_of
       (Sample.session_of [(0, ["x"%byte]); (1, ["y"%byte])]) <$> seqZ 0 2))).
Proof.
  assert (complete Sample.uid1 Sample.full_store
    = (CompleteResponse "123e4567-e89b-42d3-a456-426614174000__f.bin",
       {[ "123e4567-e89b-42d3-a456-426614174000__f.bin"
            := File ["x"%byte; "y"%byte] ]}))
    as Hrun by (vm_compute; reflexivity).
  split; [exact Hrun|].
  assert (∀ i, is_Some (parts (Sample.session_of
                                 [(0, ["x"%byte]); (1, ["y"%byte])]) !! i)
               ↔ 0 ≤ i < 2) as Hdom.
  { intros i. unfold Sample.session_of. simpl.
    destruct (decide (i = 0)) as [->|H0]; [split; [lia | by eexists]|].
    destruct (decide (i = 1)) as [->|H1]; [split; [lia | by eexists]|].
    rewrite !lookup_insert_ne by done. rewrite lookup_empty.
    split; [intros [? ?]; done | lia]. }
  destruct (complete_concatenates Sample.uid1 Sample.full_store
    (Sample.session_of [(0, ["x"%byte]); (1, ["y"%byte])]) 2 _ _
    eq_refl ltac:(lia) Hdom Hrun) as (_ & Hname & Hfile & _).
  split; [exact (Hname eq_refl) | exact Hfile].
Defined.

(** C8, as stated, fails: the output is opened under its final name, so a
    fault while copying the second chunk leaves the first chunk alone at the
    final location. *)
Lemma never_partial_counterexample :
  ¬ never_partial Sample.fault_at_1 Sample.uid1 Sample.full_store.
Proof.
  intros H.
  destruct (H (Sample.session_of [(0, ["x"%byte]); (1, ["y"%byte])]) eq_refl)
    as [Hsame|Hfull]; vm_compute in *; discriminate.
Qed.

(** C8 (amended): the concatenation is written directly under the final
    artifact name.  When the copy raises at block [j] of the [k]-th chunk
    file (in the order of assembly), [n] bytes of the block written, the
    request answers 500, the session directory is kept, and the final
    location holds what was copied before: the chunk files before the
    [k]-th and the first [j] blocks and [n] bytes of the [k]-th, a prefix
    of the whole concatenation. *)
Theorem complete_io_exposes_prefix fault (k j : nat) n uid fs s part :
  fs !! uid = Some (Dir s) →
  can_create (final_name uid (original_name s)) fs = true →
  (sorted_chunks s).*2 !! k = Some part →
  (Z.of_nat j - 1) * COPY_BUFSIZE < Z.of_nat (length part) →
  fault k j = Some n →
  0 ≤ n ≤ COPY_BUFSIZE →
  (∀ k' j', (k' < k)%nat → fault k' j' = None) →
  (∀ j', (j' < j)%nat → fault k j' = None) →
  let final := uid +:+ "__" +:+ original_name s in
  let copied :=
    mjoin (take k ((sorted_chunks s).*2))
    ++ takeZ (Z.of_nat j * COPY_BUFSIZE + n) part in
  complete_io fault uid fs = (HTTPError 500, <[final := File copied]> fs) ∧
  (<[final := File copied]> fs) !! uid = Some (Dir s) ∧
  copied `prefix_of` mjoin ((sorted_chunks s).*2).
Proof.
  intros Hs Hcan Hpart Hreach Hf Hn Hparts Hblocks final copied.
  assert (parts s ≠ ∅) as Hne.
  { intros He. apply sorted_chunks_nil in He. by rewrite He in Hpart. }
  split; [|split].
  - rewrite (complete_io_dir _ _ _ _ Hs Hne Hcan).
    rewrite (assemble_fault fault k j n 0 _ part []); done.
  - rewrite lookup_insert_ne; [done|]. apply final_name_ne.
  - exists (dropZ (Z.of_nat j * COPY_BUFSIZE + n) part
            ++ mjoin (drop (S k) ((sorted_chunks s).*2))).
    subst copied.
    rewrite <- (take_drop k ((sorted_chunks s).*2)) at 1.
    rewrite join_app, (drop_S _ _ _ Hpart). simpl.
    rewrite <- !app_assoc. f_equal.
    rewrite (app_assoc (takeZ _ part)), takeZ_dropZ. done.
Qed.

Lemma complete_io_exposes_prefix_witness :
  Sample.fault_mid 1%nat 0%nat = Some 1 ∧
  complete_io Sample.fault_mid Sample.uid1 Sample.wide_store
  = (HTTPError 500,
     <["123e4567-e89b-42d3-a456-426614174000__f.bin"
       := File ["a"; "b"; "c"]%byte]> Sample.wide_store).
Proof.
  split; [reflexivity|].
  refine (proj1 (complete_io_exposes_prefix Sample.fault_mid 1 0 1 Sample.uid1
    Sample.wide_store
    (Sample.session_of [(0, ["a"; "b"]%byte); (1, ["c"; "d"]%byte)])
    ["c"; "d"]%byte _ _ _ _ _ _ _ _)).
  - reflexivity.
  - vm_compute. reflexivity.
  - vm_compute. reflexivity.
  - vm_compute. reflexivity.
  - reflexivity.
  - vm_compute. split; discriminate.
  - intros k' j' Hk. assert (k' = 0%nat) as -> by lia. reflexivity.
  - intros j' Hj. lia.
Defined.

(** ** The uploader *)

Section UploaderFacts.

Context (E : env).

Lemma http_trace o r w : trace (http E o r w).2 = trace w ++ [Sent r].
Proof.
  unfold http. destruct (net E o); simpl; try done;
    by destruct (serve _ _ _).
Qed.

Lemma http_metaf o r w : metaf (http E o r w).2 = metaf w.
Proof.
  unfold http. destruct (net E o); simpl; try done;
    by destruct (serve _ _ _).
Qed.

Lemma http_srv o r w :
  srv (http E o r w).2 = srv w ∨
  srv (http E o r w).2 = (serve (uuid4 E) r (srv w)).2.
Proof.
  unfold http. destruct (net E o); simpl; [| by left |];
    destruct (serve _ _ _); by right.
Qed.

Lemma http_deliver o r w :
  net E o = Deliver →
  http E o r w
  = (Some (serve (uuid4 E) r (srv w)).1,
     set_srv (serve (uuid4 E) r (srv w)).2 (log (Sent r) w)).
Proof. intros H. unfold http. rewrite H. simpl. by destruct (serve _ _ _). Qed.

Lemma http_answer o r w resp :
  (http E o r w).1 = Some resp →
  net E o = Deliver ∧ resp = (serve (uuid4 E) r (srv w)).1 ∧
  srv (http E o r w).2 = (serve (uuid4 E) r (srv w)).2.
Proof.
  unfold http. destruct (net E o); simpl; [| done |].
  - destruct (serve _ _ _). simpl. by intros [= ->].
  - by destruct (serve _ _ _).
Qed.

(** One attempt to send a chunk. *)
Lemma upload_chunk_attempt uid i k b w :
  let r := Uploader.upload_chunk E uid i k b w in
  trace r.2 = trace w ++ [Sent (PutChunk uid i b)] ∧
  metaf r.2 = metaf w ∧
  (srv r.2 = srv w ∨ srv r.2 = (Server.upload_chunk uid i b (srv w)).2) ∧
  (r.1 = true →
     net E (OpChunk i k) = Deliver ∧
     ∃ s, srv w !! uid = Some (Dir s) ∧
          srv r.2 = (Server.upload_chunk uid i b (srv w)).2).
Proof.
  unfold Uploader.upload_chunk.
  pose proof (http_trace (OpChunk i k) (PutChunk uid i b) w) as Ht.
  pose proof (http_metaf (OpChunk i k) (PutChunk uid i b) w) as Hm.
  pose proof (http_srv (OpChunk i k) (PutChunk uid i b) w) as Hs.
  pose proof (http_answer (OpChunk i k) (PutChunk uid i b) w) as Ha.
  destruct (http E (OpChunk i k) (PutChunk uid i b) w) as [[resp|] w'];
    simpl in *.
  - destruct (Ha resp eq_refl) as (Hnet & -> & Hsrv).
    unfold Server.upload_chunk in *.
    destruct (srv w !! uid) as [[s|c]|] eqn:Hdir; simpl in *;
      repeat split; eauto; discriminate.
  - repeat split; eauto; discriminate.
Qed.

Lemma attempts_nil i : attempts i [] = 0%nat.
Proof. reflexivity. Qed.

Lemma attempts_app i tr1 tr2 :
  attempts i (tr1 ++ tr2) = (attempts i tr1 + attempts i tr2)%nat.
Proof. unfold attempts. by rewrite filter_app, length_app. Qed.

Lemma attempts_put uid i j b tr :
  attempts i (Sent (PutChunk uid j b) :: tr)
  = ((if bool_decide (j = i) then 1 else 0) + attempts i tr)%nat.
Proof.
  unfold attempts. rewrite filter_cons. simpl.
  case_bool_decide; destruct (decide _); simpl; congruence.
Qed.

Lemma attempts_sleep i t tr : attempts i (Sleep t :: tr) = attempts i tr.
Proof. unfold attempts. rewrite filter_cons. by destruct (decide _). Qed.

Lemma fed_from_trans data c uid fs1 fs2 fs3 :
  fed_from data c uid fs1 fs2 → fed_from data c uid fs2 fs3 →
  fed_from data c uid fs1 fs3.
Proof.
  intros H12 H23. induction H23 as [|fs i b H IH Hread]; [done|].
  by apply fed_put.
Qed.

Section Chunk.

Variable meta : Meta.
Variable data : bytes.

Let uid := upload_id meta.
Let c := chunk_size meta.

(** What the retry loop can do with one chunk. *)
Lemma send_chunk_spec idx b k sched w :
  read_at data (idx * c) c = inr b →
  let r := send_chunk E meta idx b k sched w in
  ∃ tr, trace r.2 = trace w ++ tr ∧
        Forall (λ e, e = Sent (PutChunk uid idx b) ∨ ∃ t, e = Sleep t) tr ∧
        (attempts idx tr ≤ length sched)%nat ∧
        (∀ j, j ≠ idx → attempts j tr = 0%nat) ∧
        fed_from data c uid (srv w) (srv r.2) ∧
        metaf r.2 = (if r.1 then Stored meta else metaf w) ∧
        (r.1 = false →
           tr = sched ≫= λ t, [Sent (PutChunk uid idx b); Sleep t]).
Proof.
  intros Hread. revert k w. induction sched as [|t sched IH]; intros k w; simpl.
  { exists []. rewrite app_nil_r. repeat split; try done. constructor. }
  destruct (upload_chunk_attempt uid idx k b w) as (Ht & Hm & Hs & _).
  fold uid.
  destruct (Uploader.upload_chunk E uid idx k b w) as [[] w1]; simpl in *.
  - exists [Sent (PutChunk uid idx b)]. repeat split; try done.
    + by rewrite Forall_singleton; left.
    + rewrite attempts_put, attempts_nil. case_bool_decide; simpl; lia.
    + intros j Hj. rewrite attempts_put, attempts_nil. by case_bool_decide.
    + destruct Hs as [-> | ->]; [constructor|].
      apply fed_put; [constructor | done].
  - destruct (IH (S k) (log (Sleep t) w1)) as (tr & Ht' & Hall & Hcnt & Hoth & Hfed & Hm' & Hfail).
    exists (Sent (PutChunk uid idx b) :: Sleep t :: tr).
    split; [|split; [|split; [|split; [|split; [|split]]]]].
    + rewrite Ht'. simpl. rewrite Ht. by rewrite <- !app_assoc.
    + constructor; [by left|]. constructor; [right; by eexists | done].
    + rewrite attempts_put, attempts_sleep. case_bool_decide; simpl; lia.
    + intros j Hj. rewrite attempts_put, attempts_sleep.
      case_bool_decide; [congruence|]. by apply Hoth.
    + eapply fed_from_trans; [|exact Hfed]. simpl.
      destruct Hs as [-> | ->]; [constructor|].
      apply fed_put; [constructor | done].
    + rewrite Hm'. simpl. by rewrite Hm.
    + intros Hf. by rewrite (Hfail Hf).
Qed.

(** A chunk the transport never delivers is given up. *)
Lemma send_chunk_undelivered idx b k sched w :
  (∀ j, net E (OpChunk idx j) ≠ Deliver) →
  (send_chunk E meta idx b k sched w).1 = false.
Proof.
  intros Hnet. revert k w. induction sched as [|t sched IH]; intros k w;
    simpl; [done|].
  destruct (upload_chunk_attempt uid idx k b w) as (_ & _ & _ & Hok).
  fold uid. destruct (Uploader.upload_chunk E uid idx k b w) as [[] w1];
    simpl in *.
  - destruct (Hok eq_refl) as [Hd _]. by apply Hnet in Hd.
  - apply IH.
Qed.


(** A delivered chunk of a known session is stored at the first attempt. *)
Lemma send_chunk_delivered idx b w s :
  net E (OpChunk idx 1) = Deliver →
  srv w !! uid = Some (Dir s) →
  send_chunk E meta idx b 1 RETRY_BACKOFF w
  = (true,
     save_meta meta
       (set_srv (<[uid := Dir (set_parts s (<[idx := b]> (parts s)))]> (srv w))
          (log (Sent (PutChunk uid idx b)) w))).
Proof.
  intros Hnet Hdir. simpl. unfold Uploader.upload_chunk.
  rewrite (http_deliver _ _ _ Hnet). simpl.
  unfold Server.upload_chunk. fold uid. rewrite Hdir. simpl.
  by rewrite write_body_id.
Qed.

Lemma loop_event_cons i idxs e :
  loop_event data c uid idxs e → loop_event data c uid (i :: idxs) e.
Proof.
  destruct e as [[| |u j b|]|]; simpl; try done.
  intros (-> & Hj & Hr). repeat split; [by right | done].
Qed.

Lemma loop_event_attempts i idxs tr :
  Forall (loop_event data c uid idxs) tr → i ∉ idxs → attempts i tr = 0%nat.
Proof.
  intros Hall Hi. induction Hall as [|e tr He Hall IH]; [done|].
  destruct e as [[| |u j b|]|]; simpl in He; try done.
  destruct He as (-> & Hj & _). rewrite attempts_put, IH.
  case_bool_decide; [congruence | done].
Qed.

Lemma chunk_events_loop_event i idxs b tr :
  read_at data (i * c) c = inr b →
  Forall (λ e, e = Sent (PutChunk uid i b) ∨ ∃ t, e = Sleep t) tr →
  Forall (loop_event data c uid (i :: idxs)) tr.
Proof.
  intros Hr Hall. eapply Forall_impl; [exact Hall|].
  intros e [-> | [t ->]]; simpl; [|done].
  repeat split; [by left | done].
Qed.

Lemma chunk_events_puts i b tr :
  Forall (λ e, e = Sent (PutChunk uid i b) ∨ ∃ t, e = Sleep t) tr →
  Forall (λ e, ∀ j, is_put j e = true → j = i) tr.
Proof.
  intros Hall. eapply Forall_impl; [exact Hall|].
  intros e [-> | [t ->]] j; simpl; [|done].
  intros H. by apply bool_decide_eq_true in H.
Qed.

Lemma loop_post_idle idxs ex w : loop_post E meta data idxs w (ex, w).
Proof.
  exists []. simpl. rewrite app_nil_r.
  split; [done|]. split; [constructor|]. split; [constructor|].
  split; [by left|]. split.
  - intros i. rewrite attempts_nil. lia.
  - intros idx _ H. by rewrite attempts_nil in H.
Qed.

(** What the chunk loop can do over an ascending list of indices: it only
    sends chunks of the file to its session, at most once per entry of the
    backoff schedule for each index, and a chunk that is sent and never
    delivered ends the loop right after its last attempt. *)
Lemma upload_loop_spec cap idxs uploaded sent w :
  StronglySorted Z.lt idxs →
  loop_post E meta data idxs w
    (upload_loop E meta data cap idxs uploaded sent w).
Proof.
  intros Hsorted. revert uploaded sent w.
  induction Hsorted as [|i rest Hsorted IH Hlt]; intros uploaded sent w.
  { apply loop_post_idle. }
  cbn [upload_loop]. case_bool_decide as Hin.
  { destruct (IH uploaded sent w) as (tr & Ht & Hall & Hfed & Hm & Hcnt & Hfail).
    exists tr. split; [done|]. split; [|done].
    eapply Forall_impl; [exact Hall|]. intros e. apply loop_event_cons. }
  destruct (cap_reached cap sent); [apply loop_post_idle|].
  fold c. destruct (read_at data (i * c) c) as [e|[|x b']] eqn:Hread;
    [apply loop_post_idle | apply loop_post_idle |].
  set (b := x :: b') in *.
  destruct (send_chunk_spec i b 1 RETRY_BACKOFF w Hread)
    as (tr1 & Ht1 & Hall1 & Hcnt1 & Hoth1 & Hfed1 & Hm1 & Hfail1).
  pose proof (send_chunk_undelivered i b 1 RETRY_BACKOFF w) as Hund.
  assert (i ∉ rest) as Hnotin.
  { intros Hi. rewrite Forall_forall in Hlt. specialize (Hlt _ Hi). lia. }
  destruct (send_chunk E meta i b 1 RETRY_BACKOFF w) as [[] w1]; simpl in *.
  - destruct (IH ({[i]} ∪ uploaded) (sent + 1) w1)
      as (tr & Ht & Hall & Hfed & Hm & Hcnt & Hfail).
    exists (tr1 ++ tr). split; [by rewrite Ht, Ht1, app_assoc|].
    split; [|split; [|split; [|split]]].
    + apply Forall_app. split.
      * by eapply chunk_events_loop_event.
      * eapply Forall_impl; [exact Hall|]. intros e. apply loop_event_cons.
    + by eapply fed_from_trans.
    + destruct Hm as [-> | ->]; by right.
    + intros j. rewrite attempts_app. destruct (decide (j = i)) as [->|Hj].
      * rewrite (loop_event_attempts i rest tr Hall Hnotin).
        change (length RETRY_BACKOFF) with 4%nat in *. lia.
      * rewrite (Hoth1 j Hj). apply Hcnt.
    + intros idx Hnet Hatt. rewrite attempts_app in Hatt.
      destruct (decide (idx = i)) as [->|Hne].
      { specialize (Hund Hnet). done. }
      rewrite (Hoth1 idx Hne) in Hatt. simpl in Hatt.
      destruct (Hfail idx Hnet Hatt) as (Hstop & pre & b0 & -> & Hpre).
      split; [done|]. exists (tr1 ++ pre), b0. split; [by rewrite app_assoc|].
      apply Forall_app. split; [|done].
      assert (idx ∈ rest) as Hidx.
      { destruct (decide (idx ∈ rest)) as [|Hn]; [done|].
        by rewrite (loop_event_attempts idx rest _ Hall Hn) in Hatt. }
      rewrite Forall_forall in Hlt. specialize (Hlt _ Hidx).
      eapply Forall_impl; [exact (chunk_events_puts _ _ _ Hall1)|].
      intros e He j Hj. rewrite (He j Hj). done.
  - exists tr1. split; [done|]. split; [by eapply chunk_events_loop_event|].
    split; [done|]. split; [by left|]. split.
    + intros j. destruct (decide (j = i)) as [->|Hj]; [done|].
      rewrite (Hoth1 j Hj). change (length RETRY_BACKOFF) with 4%nat. lia.
    + intros idx Hnet Hatt. split; [done|].
      destruct (decide (idx = i)) as [->|Hne].
      * exists [], b. split; [|constructor]. by rewrite (Hfail1 eq_refl).
      * by rewrite (Hoth1 idx Hne) in Hatt.
Qed.

Lemma read_at_slice i :
  0 < c → 0 ≤ i → i * c < Z.of_nat (length data) →
  read_at data (i * c) c = inr (slice data c i) ∧ slice data c i ≠ [].
Proof.
  intros Hc Hi Hlen. split.
  - unfold read_at.
    destruct (Z.ltb_spec (i * c) 0); [nia|].
    destruct (Z.ltb_spec c (-1)); [lia|].
    destruct (Z.eqb_spec c (-1)); [lia | done].
  - unfold slice. intros Hnil. apply takeZ_nil_inv in Hnil; [|done].
    revert Hnil. apply dropZ_nonempty; nia.
Qed.

Lemma missing_add i X l : i ∉ l → missing ({[i]} ∪ X) l = missing X l.
Proof.
  unfold missing. induction l as [|j l IH]; intros Hi; [done|].
  apply not_elem_of_cons in Hi as [Hij Hi].
  rewrite !filter_cons, (IH Hi).
  destruct (decide (j ∉ {[i]} ∪ X)) as [H1|H1];
    destruct (decide (j ∉ X)) as [H2|H2]; try done; set_solver.
Qed.

(** With a transport that delivers and a session the server knows, the
    loop sends each missing index once, in order, and the server stores
    it. *)
Lemma upload_loop_reliable idxs uploaded sent w s :
  (∀ o, net E o = Deliver) →
  0 < c →
  NoDup idxs →
  (∀ i, i ∈ idxs → 0 ≤ i ∧ i * c < Z.of_nat (length data)) →
  srv w !! uid = Some (Dir s) →
  ∃ w' s',
    upload_loop E meta data None idxs uploaded sent w = (Exhausted, w') ∧
    trace w' = trace w ++
      ((λ i, Sent (PutChunk uid i (slice data c i))) <$> missing uploaded idxs) ∧
    srv w' = <[uid := Dir s']> (srv w) ∧
    meta_filename s' = meta_filename s ∧
    (∀ i, parts s' !! i =
          if bool_decide (i ∈ idxs ∧ i ∉ uploaded)
          then Some (slice data c i) else parts s !! i).
Proof.
  intros Hnet Hc Hnodup. revert uploaded sent w s.
  induction Hnodup as [|idx rest Hnotin Hnodup IH];
    intros uploaded sent w s Hrange Hdir.
  { exists w, s. simpl. rewrite app_nil_r. repeat split; try done.
    symmetry. by apply insert_id. }
  assert (∀ i, i ∈ rest → 0 ≤ i ∧ i * c < Z.of_nat (length data)) as Hrange'.
  { intros i Hi. apply Hrange. by right. }
  cbn [upload_loop]. case_bool_decide as Hin.
  - destruct (IH uploaded sent w s Hrange' Hdir) as (w' & s' & Hrun & Ht & Hs & Hn & Hp).
    exists w', s'. split; [done|]. split; [|split; [done|split; [done|]]].
    + rewrite Ht. unfold missing. rewrite filter_cons.
      destruct (decide (idx ∉ uploaded)); done.
    + intros i. rewrite Hp.
      repeat case_bool_decide; try done; exfalso; set_solver.
  - unfold cap_reached. destruct (Hrange idx) as [Hi0 Hilen]; [by left|].
    destruct (read_at_slice idx Hc Hi0 Hilen) as [Hread Hne].
    fold c. rewrite Hread.
    destruct (slice data c idx) as [|x b'] eqn:Hb; [done|].
    rewrite (send_chunk_delivered idx (x :: b') w s (Hnet _) Hdir).
    set (s1 := set_parts s (<[idx := x :: b']> (parts s))).
    set (w1 := save_meta meta _).
    destruct (IH ({[idx]} ∪ uploaded) (sent + 1) w1 s1 Hrange')
      as (w' & s' & Hrun & Ht & Hs & Hn & Hp).
    { subst w1. simpl. by rewrite lookup_insert_eq. }
    exists w', s'. split; [done|]. split; [|split; [|split; [done|]]].
    + rewrite Ht. subst w1. simpl. rewrite (missing_add _ _ _ Hnotin).
      unfold missing at 2. rewrite filter_cons.
      destruct (decide (idx ∉ uploaded)); [|done].
      rewrite fmap_cons, Hb. by rewrite <- app_assoc.
    + rewrite Hs. subst w1. simpl. by rewrite insert_insert_eq.
    + intros i. rewrite Hp. subst s1. simpl.
      destruct (decide (i = idx)) as [->|Hne'].
      * rewrite lookup_insert_eq.
        rewrite bool_decide_eq_false_2 by (intros [? _]; done).
        rewrite bool_decide_eq_true_2; [by rewrite Hb|].
        split; [by left | done].
      * rewrite lookup_insert_ne by done.
        repeat case_bool_decide; try done; exfalso; set_solver.
Qed.

End Chunk.

Lemma total_chunks_bounds size c :
  0 < c → 0 ≤ size →
  (total_chunks size c - 1) * c < size ≤ total_chunks size c * c.
Proof.
  intros Hc Hsize. unfold total_chunks.
  pose proof (Z.div_mod (size + c - 1) c ltac:(lia)) as Hdm.
  pose proof (Z.mod_pos_bound (size + c - 1) c Hc) as Hmod. nia.
Qed.

(** Cutting a file in chunks and gluing the chunks gives the file back. *)
Lemma slices_prefix (data : bytes) c (k : nat) :
  0 < c →
  mjoin (slice data c <$> seqZ 0 (Z.of_nat k)) = takeZ (Z.of_nat k * c) data.
Proof.
  intros Hc. induction k as [|k IH].
  - simpl. by destruct data.
  - rewrite seqZ_S, fmap_app, join_app, IH. simpl. rewrite app_nil_r.
    unfold slice. rewrite <- takeZ_add by lia. f_equal. lia.
Qed.

Lemma slices_join (data : bytes) c :
  0 < c →
  mjoin (slice data c <$> seqZ 0 (total_chunks (Z.of_nat (length data)) c))
  = data.
Proof.
  intros Hc.
  pose proof (total_chunks_bounds (Z.of_nat (length data)) c Hc ltac:(lia)) as Hb.
  assert (0 ≤ total_chunks (Z.of_nat (length data)) c) as Hpos by nia.
  rewrite <- (Z2Nat.id _ Hpos), slices_prefix by done.
  apply takeZ_all. rewrite Z2Nat.id by done. lia.
Qed.

Lemma elem_of_uploaded s i :
  i ∈ (list_to_set ((sorted_chunks s).*1) : gset Z) ↔ is_Some (parts s !! i).
Proof.
  rewrite elem_of_list_to_set, list_elem_of_fmap. split.
  - intros ([j b] & -> & Hin). apply elem_of_sorted_chunks in Hin. by eexists.
  - intros [b Hb]. exists (i, b). split; [done|].
    by apply elem_of_sorted_chunks.
Qed.

Lemma can_create_insert_dir name uid s fs :
  name ≠ uid → can_create name (<[uid := Dir s]> fs) = can_create name fs.
Proof. intros Hne. unfold can_create. by rewrite lookup_insert_ne. Qed.

(** A run that finds its session on the server, with chunks of this file
    only, and a transport that delivers: the missing chunks are sent in
    ascending order, completion succeeds, and the artifact holds the bytes
    of the file. *)
Lemma transfer_reliable meta (data : bytes) w s :
  let uid := upload_id meta in
  let c := chunk_size meta in
  let total := total_chunks (Z.of_nat (length data)) c in
  let final := final_name uid (original_name s) in
  (∀ o, net E o = Deliver) →
  0 < c →
  data ≠ [] →
  srv w !! uid = Some (Dir s) →
  (∀ i b, parts s !! i = Some b → 0 ≤ i < total ∧ b = slice data c i) →
  can_create final (srv w) = true →
  transfer E meta data None w
  = (Return true,
     {| srv := delete uid (<[final := File data]> (srv w));
        metaf := Absent;
        trace := trace w ++ [Sent (Status uid)] ++
          ((λ i, Sent (PutChunk uid i (slice data c i)))
             <$> missing (dom (parts s)) (seqZ 0 total)) ++
          [Sent (Complete uid)] |}).
Proof.
  intros uid c total final Hnet Hc Hdata Hdir Hparts Hcan.
  pose proof (total_chunks_bounds (Z.of_nat (length data)) c Hc ltac:(lia)) as Hb.
  fold total in Hb.
  assert (1 ≤ total) as Htotal.
  { destruct data; [done|]. simpl length in Hb. nia. }
  unfold transfer. fold c uid total.
  destruct (Z.eqb_spec c 0) as [|_]; [lia|].
  unfold get_uploaded_chunks. rewrite (http_deliver _ _ _ (Hnet _)).
  cbn [serve fst snd]. unfold status. rewrite Hdir.
  set (w2 := set_srv _ _).
  destruct (upload_loop_reliable meta data (seqZ 0 total)
              (list_to_set ((sorted_chunks s).*1)) 0 w2 s Hnet Hc
              (NoDup_seqZ _ _))
    as (w3 & s3 & Hrun & Ht & Hs & Hn & Hp).
  { intros i Hi. apply elem_of_seqZ in Hi. nia. }
  { done. }
  fold uid c in Hrun, Ht, Hs, Hp. rewrite Hrun.
  assert (missing (list_to_set ((sorted_chunks s).*1)) (seqZ 0 total)
          = missing (dom (parts s)) (seqZ 0 total)) as Hmiss.
  { unfold missing. apply list_filter_iff. intros i.
    pose proof (elem_of_uploaded s i). pose proof (elem_of_dom (parts s) i).
    tauto. }
  rewrite Hmiss in Ht.
  assert (∀ i, parts s3 !! i =
               if bool_decide (0 ≤ i < total) then Some (slice data c i)
               else None) as Hp3.
  { intros i. rewrite Hp.
    pose proof (elem_of_seqZ 0 total i) as Hseq.
    pose proof (elem_of_uploaded s i) as Hup.
    destruct (parts s !! i) as [b|] eqn:Hi.
    - destruct (Hparts i b Hi) as [Hr ->].
      rewrite bool_decide_eq_false_2.
      + by rewrite bool_decide_eq_true_2.
      + intros [_ H]. apply H, Hup. by eexists.
    - case_bool_decide as H1; case_bool_decide as H2; try done.
      + destruct H1 as [H1 _]. apply Hseq in H1. lia.
      + exfalso. apply H1. split; [apply Hseq; lia|].
        intros Hx. apply Hup in Hx. by destruct Hx. }
  assert (∀ i, is_Some (parts s3 !! i) ↔ 0 ≤ i < total) as Hdom3.
  { intros i. rewrite Hp3. case_bool_decide; split; try done.
    all: by intros [? ?]. }
  assert (parts s3 ≠ ∅) as Hne3.
  { intros He. destruct (Hdom3 0) as [_ [b0 H0]]; [lia|].
    by rewrite He, lookup_empty in H0. }
  assert (original_name s3 = original_name s) as Hname.
  { unfold original_name. by rewrite Hn. }
  unfold complete_upload. rewrite (http_deliver _ _ _ (Hnet _)).
  cbn [serve fst snd]. rewrite Hs.
  rewrite (complete_dir uid (<[uid:=Dir s3]> (srv w2)) s3).
  - cbn [fst snd]. rewrite Hname. fold final.
    unfold remove_meta, set_metaf, set_srv, log. cbn. f_equal. f_equal.
    + rewrite (sorted_chunks_range s3 total Hdom3).
      rewrite <- list_fmap_compose.
      replace (mjoin _) with data.
      * rewrite (insert_insert_ne); [|by apply final_name_ne].
        by rewrite delete_insert_eq.
      * rewrite <- (slices_join data c Hc) at 1. fold total. f_equal.
        apply list_fmap_ext. intros k i Hk. apply lookup_seqZ in Hk as [-> Hk].
        unfold chunk_of. cbn. rewrite Hp3.
        by rewrite bool_decide_eq_true_2 by lia.
    + rewrite Ht. subst w2. cbn. by rewrite <- !app_assoc.
  - by rewrite lookup_insert_eq.
  - done.
  - rewrite Hname. fold final. rewrite can_create_insert_dir; [done|].
    apply final_name_ne.
Qed.

Lemma get_uploaded_chunks_spec uid w :
  let r := get_uploaded_chunks E uid w in
  trace r.2 = trace w ++ [Sent (Status uid)] ∧
  srv r.2 = srv w ∧ metaf r.2 = metaf w.
Proof.
  unfold get_uploaded_chunks.
  pose proof (http_trace OpStatus (Status uid) w) as Ht.
  pose proof (http_metaf OpStatus (Status uid) w) as Hm.
  pose proof (http_srv OpStatus (Status uid) w) as Hs.
  assert (srv (http E OpStatus (Status uid) w).2 = srv w) as Hs'
    by (by destruct Hs).
  destruct (http E OpStatus (Status uid) w) as [[[]|] w']; simpl in *;
    try done.
  by destruct (_ =? 404).
Qed.

Lemma complete_upload_spec uid w :
  let r := complete_upload E uid w in
  trace r.2 = trace w ++ [Sent (Complete uid)] ∧
  metaf r.2 = metaf w ∧
  (srv r.2 = srv w ∨ srv r.2 = (complete uid (srv w)).2).
Proof.
  unfold complete_upload.
  pose proof (http_trace OpComplete (Complete uid) w) as Ht.
  pose proof (http_metaf OpComplete (Complete uid) w) as Hm.
  pose proof (http_srv OpComplete (Complete uid) w) as Hs.
  by destruct (http E OpComplete (Complete uid) w) as [[[]|] w'].
Qed.

Lemma loop_event_target data c uid idxs e :
  loop_event data c uid idxs e →
  is_initiate e = false ∧ is_complete e = false ∧
  (target e = None ∨ target e = Some uid).
Proof.
  destruct e as [[| |u j b|]|]; simpl; try done.
  - intros (-> & _). by repeat split; try right.
  - intros _. by repeat split; try left.
Qed.

(** What [transfer] can do, whatever the transport does. *)
Lemma transfer_spec meta data cap w :
  transfer_post E meta data w (transfer E meta data cap w).
Proof.
  unfold transfer. set (uid := upload_id meta). set (c := chunk_size meta).
  destruct (c =? 0).
  { exists []. simpl. rewrite app_nil_r. split; [done|].
    split; [constructor|]. split; [exists (srv w); split; [constructor | by left]|].
    split; [by left|]. split.
    - intros i. rewrite attempts_nil. lia.
    - intros idx _ H. by rewrite attempts_nil in H. }
  destruct (get_uploaded_chunks_spec uid w) as (Ht2 & Hs2 & Hm2).
  set (q := match get_uploaded_chunks E uid w with
            | (inr l, w') => (list_to_set l : gset Z, w')
            | (inl _, w') => (∅, w')
            end).
  assert (q.2 = (get_uploaded_chunks E uid w).2) as Hq.
  { subst q. by destruct (get_uploaded_chunks E uid w) as [[?|?] ?]. }
  destruct q as [uploaded w2]. simpl in Hq. subst w2.
  set (w2 := (get_uploaded_chunks E uid w).2) in *.
  destruct (upload_loop_spec meta data cap
              (seqZ 0 (total_chunks (Z.of_nat (length data)) c)) uploaded 0 w2
              (seqZ_sorted _ _))
    as (tr & Ht & Hall & Hfed & Hm & Hcnt & Hfail).
  fold uid c in Hall, Hfed, Hfail.
  assert (∀ i, attempts i (Sent (Status uid) :: tr) = attempts i tr) as Hatt.
  { intros i. unfold attempts. rewrite filter_cons. simpl.
    by destruct (decide (false = true)). }
  assert (Forall (λ e, is_initiate e = false ∧
                       (target e = None ∨ target e = Some uid))
            (Sent (Status uid) :: tr)) as Htargets.
  { constructor; [split; [done | by right]|].
    eapply Forall_impl; [exact Hall|]. intros e He.
    by destruct (loop_event_target _ _ _ _ _ He) as (? & ? & ?). }
  assert (∀ idx, (∀ k, net E (OpChunk idx k) ≠ Deliver) →
            attempts idx (Sent (Status uid) :: tr) ≠ 0%nat →
            (upload_loop E meta data cap
               (seqZ 0 (total_chunks (Z.of_nat (length data)) c))
               uploaded 0 w2).1 = Stopped ∧
            ∃ pre b, Sent (Status uid) :: tr = pre ++ retry_block uid idx b ∧
                     Forall (λ e, is_complete e = false ∧
                                  ∀ j, is_put j e = true → j < idx) pre)
    as Hfail'.
  { intros idx Hnet Hne. rewrite Hatt in Hne.
    destruct (Hfail idx Hnet Hne) as (Hstop & pre & b & -> & Hpre).
    split; [done|]. exists (Sent (Status uid) :: pre), b. split; [done|].
    constructor; [done|].
    apply Forall_app in Hall as [Hall _].
    rewrite Forall_forall in Hall, Hpre. apply Forall_forall. intros e He.
    split; [|by apply Hpre].
    by destruct (loop_event_target _ _ _ _ _ (Hall e He)) as (? & ? & ?). }
  destruct (upload_loop E meta data cap _ uploaded 0 w2) as [[| |e] w3];
    simpl in *.
  - destruct (complete_upload_spec uid w3) as (Ht4 & Hm4 & Hs4).
    exists (Sent (Status uid) :: tr ++ [Sent (Complete uid)]).
    assert (∀ b w4, complete_upload E uid w3 = (b, w4) →
      trace w4 = trace w ++ Sent (Status uid) :: tr ++ [Sent (Complete uid)])
      as Htrace.
    { intros b w4 Heq. rewrite Heq in Ht4. simpl in Ht4.
      rewrite Ht4, Ht. subst w2. rewrite Ht2. by rewrite <- !app_assoc. }
    assert (∃ fs, fed_from data c uid (srv w) fs ∧
              (srv (complete_upload E uid w3).2 = fs ∨
               srv (complete_upload E uid w3).2 = (complete uid fs).2))
      as Hstore.
    { exists (srv w3). split; [|done]. subst w2. by rewrite Hs2 in Hfed. }
    assert (metaf w3 = metaf w ∨ metaf w3 = Stored meta) as Hm3.
    { subst w2. by rewrite Hm2 in Hm. }
    destruct (complete_upload E uid w3) as [[] w4] eqn:Hcomp; simpl in *.
    + split; [by eapply Htrace|].
      split; [|split; [done|split; [by right; right|split]]].
      * rewrite app_comm_cons. apply Forall_app. split; [done|].
        constructor; [split; [done | by right] | constructor].
      * intros i. rewrite app_comm_cons, attempts_app, Hatt.
        specialize (Hcnt i). unfold attempts at 2. simpl. lia.
      * intros idx Hnet Hne. rewrite app_comm_cons, attempts_app in Hne.
        unfold attempts at 2 in Hne. simpl in Hne.
        rewrite Nat.add_0_r in Hne. by destruct (Hfail' idx Hnet Hne).
    + split; [by eapply Htrace|].
      split; [|split; [done|split; [rewrite Hm4; tauto|split]]].
      * rewrite app_comm_cons. apply Forall_app. split; [done|].
        constructor; [split; [done | by right] | constructor].
      * intros i. rewrite app_comm_cons, attempts_app, Hatt.
        specialize (Hcnt i). unfold attempts at 2. simpl. lia.
      * intros idx Hnet Hne. rewrite app_comm_cons, attempts_app in Hne.
        unfold attempts at 2 in Hne. simpl in Hne.
        rewrite Nat.add_0_r in Hne. by destruct (Hfail' idx Hnet Hne).
  - exists (Sent (Status uid) :: tr). cbn [fst snd].
    split; [rewrite Ht; subst w2; rewrite Ht2; by rewrite <- app_assoc|].
    split; [done|]. subst w2. rewrite Hs2 in Hfed. rewrite Hm2 in Hm.
    split; [exists (srv w3); split; [done | by left]|].
    split; [tauto|]. split; [intros i; by rewrite Hatt|].
    intros idx Hnet Hne. destruct (Hfail' idx Hnet Hne) as [_ Hblock].
    done.
  - exists (Sent (Status uid) :: tr). cbn [fst snd].
    split; [rewrite Ht; subst w2; rewrite Ht2; by rewrite <- app_assoc|].
    split; [done|]. subst w2. rewrite Hs2 in Hfed. rewrite Hm2 in Hm.
    split; [exists (srv w3); split; [done | by left]|].
    split; [tauto|]. split; [intros i; by rewrite Hatt|].
    intros idx Hnet Hne. by destruct (Hfail' idx Hnet Hne).
Qed.

(** A record whose checksum matches is reused as it is. *)
Lemma open_session_resume name digest size w m :
  metaf w = Stored m → file_md5 m = digest →
  open_session E name digest size w = (inr m, w).
Proof.
  intros Hm Hd. unfold open_session. rewrite Hm.
  cbn [load_meta truth file_md5_differs subscripts].
  by rewrite bool_decide_eq_false_2 by (intros H; by apply H).
Qed.

(** Without a usable record, a delivered initiation on an unused id starts
    an empty session and stores a new record. *)
Lemma open_session_fresh name digest size w :
  metaf w = Absent ∨ (∃ m0, metaf w = Stored m0 ∧ file_md5 m0 ≠ digest) →
  net E OpInitiate = Deliver →
  srv w !! uuid4 E = None →
  let m := {| upload_id := uuid4 E; chunk_size := Server.CHUNK_SIZE;
              file_size := size; filename := name; file_md5 := digest |} in
  open_session E name digest size w
  = (inr m,
     {| srv := <[uuid4 E := Dir {| meta_filename := name; parts := ∅ |}]> (srv w);
        metaf := Stored m;
        trace := trace w ++ [Sent (Initiate name)] |}).
Proof.
  intros Hmeta Hnet Hfree m. unfold open_session, begin_session.
  assert (initiate_upload E name (remove_meta w)
          = (inr (uuid4 E, Server.CHUNK_SIZE),
             {| srv := <[uuid4 E := Dir {| meta_filename := name; parts := ∅ |}]> (srv w);
                metaf := Absent;
                trace := trace w ++ [Sent (Initiate name)] |})) as Hinit.
  { unfold initiate_upload. rewrite (http_deliver _ _ _ Hnet).
    cbn [serve fst snd remove_meta set_metaf log srv]. unfold initiate.
    by rewrite Hfree. }
  destruct Hmeta as [Ha | (m0 & Hs & Hne)].
  - rewrite Ha. cbn [load_meta].
    replace w with (remove_meta w) at 1
      by (destruct w; simpl in *; by subst).
    by rewrite Hinit.
  - rewrite Hs. cbn [load_meta truth file_md5_differs].
    rewrite bool_decide_eq_true_2 by done. by rewrite Hinit.
Qed.

(** A stale record is removed and an initiation is sent, whatever the
    transport does next. *)
Lemma open_session_stale name digest size w m0 :
  metaf w = Stored m0 → file_md5 m0 ≠ digest →
  let r := open_session E name digest size w in
  trace r.2 = trace w ++ [Sent (Initiate name)] ∧
  (srv r.2 = srv w ∨ srv r.2 = (initiate (uuid4 E) name (srv w)).2) ∧
  match r.1 with
  | inl e => metaf r.2 = Absent
  | inr m =>
      m = {| upload_id := uuid4 E; chunk_size := Server.CHUNK_SIZE;
             file_size := size; filename := name; file_md5 := digest |} ∧
      metaf r.2 = Stored m ∧
      srv r.2 = (initiate (uuid4 E) name (srv w)).2
  end.
Proof.
  intros Hs Hne. unfold open_session. rewrite Hs.
  cbn [load_meta truth file_md5_differs].
  rewrite bool_decide_eq_true_2 by done.
  unfold begin_session, initiate_upload.
  pose proof (http_trace OpInitiate (Initiate name) (remove_meta w)) as Ht.
  pose proof (http_metaf OpInitiate (Initiate name) (remove_meta w)) as Hm.
  pose proof (http_srv OpInitiate (Initiate name) (remove_meta w)) as Hsrv.
  pose proof (http_answer OpInitiate (Initiate name) (remove_meta w)) as Ha.
  destruct (http E OpInitiate (Initiate name) (remove_meta w))
    as [[resp|] w1]; simpl in *; [|done].
  destruct (Ha resp eq_refl) as (_ & -> & Hsrv1).
  unfold initiate in *.
  destruct (srv w !! uuid4 E) as [[s|b]|]; simpl in *; done.
Qed.



(** A first run with a transport that delivers: one initiation, one status
    query, every chunk once in ascending order, one completion; the
    artifact holds the bytes of the file. *)
Lemma run_upload_fresh_reliable md5_of_file file_path (data : bytes) w :
  let name := Text.basename file_path in
  let uid := uuid4 E in
  let c := Server.CHUNK_SIZE in
  let total := total_chunks (Z.of_nat (length data)) c in
  let final :=
    final_name uid (original_name {| meta_filename := name; parts := ∅ |}) in
  (∀ o, net E o = Deliver) →
  data ≠ [] →
  metaf w = Absent →
  srv w !! uid = None →
  can_create final (srv w) = true →
  run_upload md5_of_file E file_path data None w
  = (Return true,
     {| srv := <[final := File data]> (srv w);
        metaf := Absent;
        trace := trace w ++ [Sent (Initiate name); Sent (Status uid)] ++
          ((λ i, Sent (PutChunk uid i (slice data c i))) <$> seqZ 0 total) ++
          [Sent (Complete uid)] |}).
Proof.
  intros name uid c total final Hnet Hdata Hmeta Hfree Hcan.
  unfold run_upload. fold name.
  rewrite open_session_fresh; [|by left|done|done].
  set (m := Build_Meta _ _ _ _ _). set (w1 := Build_world _ _ _).
  rewrite (transfer_reliable m data w1 {| meta_filename := name; parts := ∅ |}).
  - cbn [upload_id chunk_size srv trace w1 m parts]. fold uid c total final.
    f_equal. f_equal.
    + rewrite insert_insert_ne by apply final_name_ne.
      rewrite delete_insert_eq. apply delete_id.
      rewrite lookup_insert_ne by apply final_name_ne. done.
    + rewrite <- !app_assoc. simpl. do 4 f_equal.
      unfold missing. rewrite dom_empty_L. f_equal.
      clear. induction (seqZ 0 total) as [|i l IH]; [done|].
      rewrite filter_cons. destruct (decide (i ∉ (∅ : gset Z))) as [|H].
      * by rewrite IH.
      * exfalso. apply H. set_solver.
  - done.
  - done.
  - done.
  - simpl. by rewrite lookup_insert_eq.
  - simpl. intros i b H. by rewrite lookup_empty in H.
  - simpl. fold uid name final. rewrite can_create_insert_dir; [done|].
    apply final_name_ne.
Qed.

(** The start of a run sends at most an initiation, and leaves a record
    when it succeeds. *)
Lemma begin_session_events name digest size w :
  let r := begin_session E name digest size w in
  trace r.2 = trace w ++ [Sent (Initiate name)] ∧
  match r.1 with inr m => metaf r.2 = Stored m | inl _ => True end.
Proof.
  unfold begin_session, initiate_upload.
  pose proof (http_trace OpInitiate (Initiate name) w) as Ht.
  by destruct (http E OpInitiate (Initiate name) w) as [[[]|] w1].
Qed.

(** A progress file that holds no record: a document that counts as false
    starts a new session, the file left as it is until the new record is
    saved; another value that is not an object has no [get]; an object is
    removed as stale unless it holds the checksum of the file, and then one
    of the keys of a record is missing. *)
Lemma open_session_holds name digest size w v Hv :
  metaf w = Holds v Hv →
  open_session E name digest size w =
    if truthy v then
      match v with
      | JDict members =>
          match member "file_md5" members with
          | Some (JStr h) =>
              if bool_decide (h ≠ digest)
              then begin_session E name digest size (remove_meta w)
              else (inl KeyError, w)
          | _ => begin_session E name digest size (remove_meta w)
          end
      | _ => (inl AttributeError, w)
      end
    else begin_session E name digest size w.
Proof.
  intros Hm. unfold open_session. rewrite Hm.
  destruct (truthy v) eqn:Ht;
    destruct v as [|b|n|x|t|items|members]; try discriminate Ht;
    cbn [load_meta truth]; rewrite ?Ht; cbn [file_md5_differs];
    cbn [truth]; rewrite ?Ht; try done.
  destruct (member "file_md5" members) as [[| | | |h| |]|];
    cbn [truth subscripts]; rewrite ?Ht; try done.
  destruct (bool_decide (h ≠ digest)); cbn [truth subscripts];
    by rewrite ?Ht.
Qed.


(** Chunks stored for a session by this run are bytes of this file. *)
Lemma fed_from_file data c uid fs fs' :
  fed_from data c uid fs fs' →
  (∀ s i b, fs !! uid = Some (Dir s) → parts s !! i = Some b →
            read_at data (i * c) c = inr b) →
  ∀ s i b, fs' !! uid = Some (Dir s) → parts s !! i = Some b →
           read_at data (i * c) c = inr b.
Proof.
  intros Hfed Hfs. induction Hfed as [|fs1 j d Hfed IH Hread]; [done|].
  intros s i b. unfold Server.upload_chunk.
  destruct (fs1 !! uid) as [[s1|x]|] eqn:H1; simpl.
  - rewrite lookup_insert_eq. intros [= <-]. simpl. rewrite write_body_id.
    destruct (decide (i = j)) as [->|Hne].
    + rewrite lookup_insert_eq. by intros [= <-].
    + rewrite lookup_insert_ne by done. by apply IH.
  - rewrite H1. done.
  - rewrite H1. done.
Qed.

Lemma complete_cases uid fs :
  (complete uid fs).2 = fs ∨ (complete uid fs).2 !! uid = None.
Proof.
  unfold complete, complete_io.
  destruct (fs !! uid) as [[s|x]|] eqn:H1; try by left.
  destruct (sorted_chunks s) as [|p l]; [by left|].
  destruct (can_create _ fs); [|by left].
  rewrite assemble_no_fault. simpl. right. apply lookup_delete_eq.
Qed.

Lemma read_at_is_slice (data : bytes) c i b :
  0 < c → read_at data (i * c) c = inr b → b = slice data c i.
Proof.
  intros Hc. unfold read_at.
  destruct (i * c <? 0); [done|].
  destruct (Z.ltb_spec c (-1)); [lia|].
  destruct (Z.eqb_spec c (-1)); [lia|]. by intros [= <-].
Qed.

End UploaderFacts.

(** ** Runs *)

(** C9, as stated, fails: [load_meta] lets the error of [json.load]
    through, and the run ends with it. *)
Lemma garbled_is_fresh_start_counterexample :
  ¬ garbled_is_fresh_start Sample.digest Sample.delivering
      "/data/f.bin" Sample.abc None Sample.garbled.
Proof. intros H. destruct (H eq_refl) as [Hload _]. discriminate. Qed.

(** C9 (amended): [load_meta] catches nothing: a progress file that cannot
    be decoded makes [json.load] raise, [load_meta] and the run end with
    that error before anything is sent, and the file is left as it is. *)
Theorem garbled_meta_raises md5 E file_path data cap w :
  metaf w = Garbled →
  load_meta (metaf w) = inl JSONDecodeError ∧
  run_upload md5 E file_path data cap w = (Raised JSONDecodeError, w).
Proof.
  intros Hg. unfold run_upload, open_session. rewrite Hg. simpl. done.
Qed.

Lemma garbled_meta_raises_witness :
  metaf Sample.garbled = Garbled ∧
  run_upload Sample.digest Sample.delivering "/data/f.bin" Sample.abc None
    Sample.garbled = (Raised JSONDecodeError, Sample.garbled).
Proof.
  split; [reflexivity|].
  apply (proj2 (garbled_meta_raises Sample.digest Sample.delivering
                  "/data/f.bin" Sample.abc None Sample.garbled eq_refl)).
Defined.

(** A file without bytes has no chunk: nothing is sent and the server
    refuses to complete. *)
Lemma empty_file_run :
  total_chunks 0 Server.CHUNK_SIZE = 0 ∧
  (run_upload Sample.digest Sample.delivering "/data/empty.bin" [] None
     Sample.blank).1 = Return false ∧
  trace (run_upload Sample.digest Sample.delivering "/data/empty.bin" [] None
           Sample.blank).2
  = [Sent (Initiate "empty.bin"); Sent (Status (uuid4 Sample.delivering));
     Sent (Complete (uuid4 Sample.delivering))].
Proof. vm_compute. done. Qed.

(** C6, as stated, fails: a zero-byte file gives [total_chunks = 0], not
    1. *)
Lemma small_file_claim_counterexample :
  ¬ small_file_claim Sample.digest Sample.delivering "/data/empty.bin" []
      Sample.blank.
Proof.
  intros H. destruct H as [Htotal _].
  - vm_compute. discriminate.
  - vm_compute in Htotal. discriminate.
Qed.

(** C6 (amended): [total_chunks] is the ceiling of [file_size / chunk_size]
    with no minimum; for a file of at least one byte and at most one chunk
    it is 1, and a first run over a transport that delivers initiates, sends
    chunk 0 with the whole file, and completes. *)
Theorem small_file_single_chunk md5 E file_path (data : bytes) w :
  let name := Text.basename file_path in
  let uid := uuid4 E in
  let final :=
    final_name uid (original_name {| meta_filename := name; parts := ∅ |}) in
  1 ≤ Z.of_nat (length data) ≤ Server.CHUNK_SIZE →
  (∀ o, net E o = Deliver) →
  metaf w = Absent →
  srv w !! uid = None →
  can_create final (srv w) = true →
  (∀ size c, 0 < c → 0 ≤ size →
     (total_chunks size c - 1) * c < size ≤ total_chunks size c * c) ∧
  total_chunks (Z.of_nat (length data)) Server.CHUNK_SIZE = 1 ∧
  run_upload md5 E file_path data None w
  = (Return true,
     {| srv := <[final := File data]> (srv w);
        metaf := Absent;
        trace := trace w ++
          [Sent (Initiate name); Sent (Status uid);
           Sent (PutChunk uid 0 data); Sent (Complete uid)] |}).
Proof.
  intros name uid final Hsize Hnet Hmeta Hfree Hcan.
  split; [apply total_chunks_bounds|].
  assert (total_chunks (Z.of_nat (length data)) Server.CHUNK_SIZE = 1) as Htot.
  { pose proof (total_chunks_bounds (Z.of_nat (length data)) Server.CHUNK_SIZE
                  ltac:(done) ltac:(lia)) as Hb.
    unfold Server.CHUNK_SIZE in *. nia. }
  split; [done|].
  rewrite (run_upload_fresh_reliable E md5 file_path data w Hnet); try done.
  - rewrite Htot. fold name uid final. do 3 f_equal.
    change (seqZ 0 1) with [0]. simpl. do 3 f_equal.
    unfold slice. rewrite dropZ_0. rewrite takeZ_all; [done | lia].
  - intros ->. simpl in Hsize. lia.
Qed.

Lemma small_file_single_chunk_witness :
  1 ≤ Z.of_nat (length Sample.abc) ≤ Server.CHUNK_SIZE ∧
  total_chunks (Z.of_nat (length Sample.abc)) Server.CHUNK_SIZE = 1.
Proof.
  split.
  - vm_compute. split; discriminate.
  - refine (proj1 (proj2 (small_file_single_chunk Sample.digest
      Sample.delivering "/data/f.bin" Sample.abc Sample.blank _ _ _ _ _))).
    + vm_compute. split; discriminate.
    + reflexivity.
    + reflexivity.
    + reflexivity.
    + vm_compute. reflexivity.
Defined.

(** ** A session the server does not know *)





(** ** Resuming *)



(** ** A file that changed *)

(** C5: when the checksum of the file differs from the one in the record,
    the run removes the record and sends an initiation first; every later
    request goes to the id the initiation returned (so none goes to the old
    id), the progress file never holds the old record again, and the chunks
    stored for the new session are bytes of the current file. *)
Theorem stale_record_discarded md5 E file_path (data : bytes) cap w m0 :
  metaf w = Stored m0 →
  file_md5 m0 ≠ md5 data →
  let r := run_upload md5 E file_path data cap w in
  let uid := uuid4 E in
  ∃ tr,
    trace r.2 = trace w ++ Sent (Initiate (Text.basename file_path)) :: tr ∧
    Forall (λ e, is_initiate e = false ∧
                 (target e = None ∨ target e = Some uid)) tr ∧
    (uid ≠ upload_id m0 →
       Forall (λ e, target e ≠ Some (upload_id m0)) tr) ∧
    (metaf r.2 = Absent ∨
     ∃ m, metaf r.2 = Stored m ∧ upload_id m = uid ∧ file_md5 m = md5 data) ∧
    (srv w !! uid = None →
     ∀ s i b, srv r.2 !! uid = Some (Dir s) → parts s !! i = Some b →
              b = slice data Server.CHUNK_SIZE i).
Proof.
  intros Hm Hne r uid. subst r. unfold run_upload.
  destruct (open_session_stale E (Text.basename file_path) (md5 data)
              (Z.of_nat (length data)) w m0 Hm Hne) as (Ht & Hs & Hres).
  destruct (open_session E _ _ _ w) as [[e|m] w1]; simpl in *.
  - exists []. split; [done|]. split; [constructor|]. split; [constructor|].
    split; [by left|]. intros Hfree s i b Hdir Hpart.
    destruct Hs as [Hs|Hs]; rewrite Hs in Hdir.
    + fold uid in Hfree. congruence.
    + unfold initiate in Hdir. fold uid in Hdir. rewrite Hfree in Hdir.
      simpl in Hdir. rewrite lookup_insert_eq in Hdir.
      injection Hdir as <-. simpl in Hpart.
      by rewrite lookup_empty in Hpart.
  - destruct Hres as (-> & Hm1 & Hs1).
    set (m := Build_Meta _ _ _ _ _) in *.
    destruct (transfer_spec E m data cap w1)
      as (tr & Ht' & Hall & (fs & Hfed & Hfs) & Hmeta & _ & _).
    cbn [upload_id chunk_size m] in Hall, Hfed, Hfs. fold uid in Hall, Hfed, Hfs.
    exists tr. split; [by rewrite Ht', Ht, <- app_assoc|]. split; [done|].
    split; [|split].
    + intros Hnew. eapply Forall_impl; [exact Hall|].
      intros e [_ [He|He]]; rewrite He; congruence.
    + destruct Hmeta as [Hx|[Hx|[Hx _]]]; rewrite Hx; try (by left).
      all: right; exists m; by rewrite ?Hm1.
    + intros Hfree.
      assert (∀ s i b, fs !! uid = Some (Dir s) → parts s !! i = Some b →
                read_at data (i * Server.CHUNK_SIZE) Server.CHUNK_SIZE = inr b)
        as Hpure.
      { eapply fed_from_file; [exact Hfed|]. intros s i b Hdir Hpart.
        rewrite Hs1 in Hdir. unfold initiate in Hdir. fold uid in Hdir.
        rewrite Hfree in Hdir. simpl in Hdir. rewrite lookup_insert_eq in Hdir.
        injection Hdir as <-. simpl in Hpart.
      by rewrite lookup_empty in Hpart. }
      intros s i b Hdir Hpart. apply read_at_is_slice; [done|].
      destruct Hfs as [Hfs|Hfs]; rewrite Hfs in Hdir.
      * by eapply Hpure.
      * destruct (complete_cases uid fs) as [Hc|Hc]; rewrite Hc in Hdir.
        -- by eapply Hpure.
        -- done.
Qed.

Lemma stale_record_discarded_witness :
  file_md5 (Sample.record_of Sample.uid2 2 ["x"; "y"; "z"]%byte)
    ≠ Sample.digest Sample.abc ∧
  ∃ tr,
    trace (run_upload Sample.digest Sample.delivering "/data/f.bin"
             Sample.abc None Sample.stale).2
    = trace Sample.stale ++ Sent (Initiate (Text.basename "/data/f.bin")) :: tr.
Proof.
  split; [discriminate|].
  destruct (stale_record_discarded Sample.digest Sample.delivering
    "/data/f.bin" Sample.abc None Sample.stale
    (Sample.record_of Sample.uid2 2 ["x"; "y"; "z"]%byte))
    as (tr & Ht & _).
  - reflexivity.
  - discriminate.
  - by exists tr.
Defined.

(** ** A chunk that cannot be sent *)

(** What a run does when the transport loses every attempt at chunk 1 of a
    two-chunk file. *)
Lemma losing_chunk_1_run :
  run_upload Sample.digest Sample.losing_chunk_1 "/data/f.bin" Sample.abc None
    Sample.started
  = (Return false,
     {| srv := {[ Sample.uid2 :=
                    Dir {| meta_filename := "f.bin";
                           parts := {[ 0 := ["a"; "b"]%byte ]} |} ]};
        metaf := Stored (Sample.record_of Sample.uid2 2 Sample.abc);
        trace := [Sent (Status Sample.uid2);
                  Sent (PutChunk Sample.uid2 0 ["a"; "b"]%byte);
                  Sent (PutChunk Sample.uid2 1 ["c"]%byte); Sleep 1;
                  Sent (PutChunk Sample.uid2 1 ["c"]%byte); Sleep 2;
                  Sent (PutChunk Sample.uid2 1 ["c"]%byte); Sleep 5;
                  Sent (PutChunk Sample.uid2 1 ["c"]%byte); Sleep 10] |}).
Proof. vm_compute. reflexivity. Qed.

(** * Further properties of the server *)

(** X1: the status of a session lists exactly the indices whose chunk file is
    there, each once, in ascending order. *)
Theorem status_lists_stored uid fs s :
  fs !! uid = Some (Dir s) →
  ∃ l, status uid fs = StatusResponse l ∧
       StronglySorted Z.lt l ∧
       ∀ i, i ∈ l ↔ is_Some (parts s !! i).
Proof.
  intros Hs. exists ((sorted_chunks s).*1). unfold status. rewrite Hs.
  split; [done|]. split.
  - apply sorted_le_nodup_lt.
    + apply (StronglySorted_fmap _ idx_le); [done | apply sorted_chunks_sorted].
    + rewrite sorted_chunks_perm. apply NoDup_fst_map_to_list.
  - intros i. rewrite list_elem_of_fmap. split.
    + intros ([j b] & -> & Hin). apply elem_of_sorted_chunks in Hin.
      by eexists.
    + intros [b Hb]. exists (i, b). split; [done|].
      by apply elem_of_sorted_chunks.
Qed.

Lemma status_lists_stored_witness :
  ∃ l, status Sample.uid1 Sample.gap_store = StatusResponse l ∧
       StronglySorted Z.lt l ∧
       ∀ i, i ∈ l ↔
            is_Some (parts (Sample.session_of
                              [(0, ["x"%byte]); (2, ["z"%byte])]) !! i).
Proof.
  apply (status_lists_stored Sample.uid1 Sample.gap_store
           (Sample.session_of [(0, ["x"%byte]); (2, ["z"%byte])])).
  reflexivity.
Defined.

(** X2: session directories are made by [initiate] only: after any other
    request, every directory of the store was there before, under the same
    stored file name. *)
Theorem only_initiate_creates_sessions uuid r fs k s :
  Uploader.is_initiate (Sent r) = false →
  (serve uuid r fs).2 !! k = Some (Dir s) →
  ∃ s0, fs !! k = Some (Dir s0) ∧ meta_filename s0 = meta_filename s.
Proof.
  intros Hr. destruct r as [name|uid|uid i b|uid]; simpl in *; try done.
  - intros Hk. by exists s.
  - unfold Server.upload_chunk.
    destruct (fs !! uid) as [[s1|x]|] eqn:H1; simpl;
      try (intros Hk; by exists s).
    destruct (decide (k = uid)) as [->|Hne].
    + rewrite lookup_insert_eq. intros [= <-]. by exists s1.
    + rewrite lookup_insert_ne by done. intros Hk. by exists s.
  - destruct (complete_cases_wf uid fs) as [-> | (final & out & ->)].
    + intros Hk. by exists s.
    + intros Hk. apply lookup_delete_Some in Hk as [Hne Hk].
      destruct (decide (k = final)) as [->|Hne'].
      * by rewrite lookup_insert_eq in Hk.
      * rewrite lookup_insert_ne in Hk by done. by exists s.
Qed.

Lemma only_initiate_creates_sessions_witness :
  ∃ s0, Sample.gap_store !! Sample.uid1 = Some (Dir s0) ∧
        meta_filename s0 = "f.bin".
Proof.
  apply (only_initiate_creates_sessions Sample.uid2
           (PutChunk Sample.uid1 1 ["y"%byte]) Sample.gap_store Sample.uid1
           {| meta_filename := "f.bin";
              parts := <[1 := ["y"%byte]]>
                         (parts (Sample.session_of
                                   [(0, ["x"%byte]); (2, ["z"%byte])])) |}).
  - reflexivity.
  - vm_compute. reflexivity.
Defined.

(** X3: a session just initiated on an unused id holds no chunk: its status is
    the empty list, completing it is refused with 400 and changes nothing,
    and no other entry of the store is touched. *)
Theorem initiate_opens_empty_session uid name fs :
  fs !! uid = None →
  let fs' := (initiate uid name fs).2 in
  (initiate uid name fs).1 = InitiateResponse uid Server.CHUNK_SIZE ∧
  status uid fs' = StatusResponse [] ∧
  complete uid fs' = (HTTPError 400, fs') ∧
  ∀ k, k ≠ uid → fs' !! k = fs !! k.
Proof.
  intros Hfree fs'. subst fs'. unfold initiate. rewrite Hfree. simpl.
  split; [done|]. split; [|split].
  - unfold status. rewrite lookup_insert_eq.
    replace (sorted_chunks _) with (@nil (Z * bytes)); [done|].
    symmetry. by apply sorted_chunks_nil.
  - apply (complete_empty_dir _ _ {| meta_filename := name; parts := ∅ |});
      [by rewrite lookup_insert_eq | done].
  - intros k Hk. by rewrite lookup_insert_ne.
Qed.

Lemma initiate_opens_empty_session_witness :
  (∅ : store) !! Sample.uid1 = None ∧
  status Sample.uid1 (initiate Sample.uid1 "f.bin" ∅).2 = StatusResponse [].
Proof.
  split; [reflexivity|].
  exact (proj1 (proj2 (initiate_opens_empty_session Sample.uid1 "f.bin" ∅
                         eq_refl))).
Defined.

(** X4: chunk requests for different indices, or for different sessions, can be
    served in either order: the store is the same. *)
Theorem upload_chunk_order_irrelevant uid1 i1 b1 uid2 i2 b2 fs :
  (uid1, i1) ≠ (uid2, i2) →
  (Server.upload_chunk uid2 i2 b2 (Server.upload_chunk uid1 i1 b1 fs).2).2
  = (Server.upload_chunk uid1 i1 b1 (Server.upload_chunk uid2 i2 b2 fs).2).2.
Proof.
  intros Hne. unfold Server.upload_chunk.
  destruct (decide (uid1 = uid2)) as [->|Hu].
  - assert (i1 ≠ i2) as Hi by congruence.
    destruct (fs !! uid2) as [[s|x]|] eqn:H2; simpl; rewrite ?H2; try done.
    rewrite !lookup_insert_eq. simpl. rewrite !insert_insert_eq.
    unfold set_parts. simpl. do 3 f_equal. by apply insert_insert_ne.
  - destruct (fs !! uid1) as [[s1|x1]|] eqn:H1;
      destruct (fs !! uid2) as [[s2|x2]|] eqn:H2; simpl;
      rewrite ?lookup_insert_ne by done; rewrite ?H1, ?H2; simpl;
      rewrite ?H1, ?H2; try done.
    by apply insert_insert_ne.
Qed.

Lemma upload_chunk_order_irrelevant_witness :
  (Server.upload_chunk Sample.uid1 1 ["y"%byte]
     (Server.upload_chunk Sample.uid1 3 ["w"%byte] Sample.gap_store).2).2
  = (Server.upload_chunk Sample.uid1 3 ["w"%byte]
       (Server.upload_chunk Sample.uid1 1 ["y"%byte] Sample.gap_store).2).2.
Proof.
  apply (upload_chunk_order_irrelevant Sample.uid1 3 ["w"%byte]
           Sample.uid1 1 ["y"%byte] Sample.gap_store).
  discriminate.
Defined.

Lemma upload_all_dir uid l fs s :
  fs !! uid = Some (Dir s) →
  upload_all uid l fs
  = <[uid := Dir (set_parts s
                    (foldl (λ p ib, <[ib.1 := ib.2]> p) (parts s) l))]> fs.
Proof.
  unfold upload_all. revert fs s. induction l as [|[i b] l IH]; intros fs s Hs.
  - simpl. unfold set_parts. destruct s. simpl. symmetry. by apply insert_id.
  - cbn [foldl]. unfold Server.upload_chunk at 2. rewrite Hs. cbn [fst snd].
    rewrite (IH _ (set_parts s (<[i := write_body b]> (parts s)))).
    + rewrite insert_insert_eq, write_body_id. done.
    + by rewrite lookup_insert_eq.
Qed.

Lemma foldl_insert_lookup (l : list (Z * bytes)) (p : gmap Z bytes) i :
  NoDup (l.*1) →
  foldl (λ p ib, <[ib.1 := ib.2]> p) p l !! i
  = match list_find (λ ib, ib.1 = i) l with
    | Some (_, ib) => Some ib.2
    | None => p !! i
    end.
Proof.
  revert p. induction l as [|[j b] l IH]; intros p Hnd; [done|].
  apply NoDup_cons in Hnd as [Hj Hnd]. cbn [foldl]. rewrite (IH _ Hnd).
  cbn [list_find fst snd]. destruct (decide (j = i)) as [->|Hne].
  - destruct (list_find (λ ib, ib.1 = i) l) as [[k [i' b']]|] eqn:Hf.
    + apply list_find_Some in Hf as (Hk & Hi' & _). simpl in Hi'. subst i'.
      exfalso. apply Hj. apply list_elem_of_fmap. exists (i, b').
      split; [done|]. by eapply list_elem_of_lookup_2.
    + simpl. by rewrite lookup_insert_eq.
  - destruct (list_find (λ ib, ib.1 = i) l) as [[k ib]|]; simpl; [done|].
    by rewrite lookup_insert_ne.
Qed.

Lemma numbered_find (bs : list bytes) order k :
  k ∈ order →
  ∃ n, list_find (λ ib, ib.1 = Z.of_nat k) (numbered bs order)
       = Some (n, (Z.of_nat k, default [] (bs !! k))).
Proof.
  intros Hk.
  destruct (list_find (λ ib, ib.1 = Z.of_nat k) (numbered bs order))
    as [[n [i b]]|] eqn:Hf.
  - apply list_find_Some in Hf as (Hn & Hi & _). simpl in Hi. subst i.
    unfold numbered in Hn. apply list_lookup_fmap_Some in Hn as (k' & Heq & Hk').
    injection Heq as Hkk ->. apply Nat2Z.inj in Hkk. subst k'. by exists n.
  - exfalso. apply list_find_None in Hf. rewrite Forall_forall in Hf.
    apply (Hf (Z.of_nat k, default [] (bs !! k))); [|done].
    unfold numbered. apply list_elem_of_fmap. by exists k.
Qed.

Lemma numbered_find_none (bs : list bytes) order i :
  (∀ k, k ∈ order → Z.of_nat k ≠ i) →
  list_find (λ ib, ib.1 = i) (numbered bs order) = None.
Proof.
  intros Hi. apply list_find_None, Forall_forall. intros [j b] Hin.
  unfold numbered in Hin. apply list_elem_of_fmap in Hin as (k & [= -> ->] & Hk).
  simpl. by apply Hi.
Qed.

(** X5: the server accepts the chunks of a file in any order: once every chunk
    0..n-1 has arrived, each once, completion assembles them by index, so
    the artifact is the file; the session is then gone, and a second
    completion answers 404 and leaves the artifact. *)
Theorem chunks_in_any_order uid name (bs : list bytes) order fs :
  let fs1 := (initiate uid name fs).2 in
  let fs2 := upload_all uid (numbered bs order) fs1 in
  let final :=
    final_name uid (original_name {| meta_filename := name; parts := ∅ |}) in
  fs !! uid = None →
  can_create final fs = true →
  bs ≠ [] →
  order ≡ₚ seq 0 (length bs) →
  (complete uid fs2).1 = CompleteResponse final ∧
  (complete uid fs2).2 = <[final := File (mjoin bs)]> fs ∧
  complete uid (complete uid fs2).2 = (HTTPError 404, (complete uid fs2).2).
Proof.
  intros fs1 fs2 final Hfree Hcan Hbs Hperm.
  assert (NoDup order) as Hnd by (rewrite Hperm; apply NoDup_seq).
  assert (∀ k, k ∈ order ↔ (k < length bs)%nat) as Hmem.
  { intros k. rewrite Hperm, elem_of_seq. lia. }
  set (s0 := {| meta_filename := name; parts := ∅ |}).
  assert (fs1 = <[uid := Dir s0]> fs) as Hfs1.
  { subst fs1. unfold initiate. by rewrite Hfree. }
  set (p := foldl (λ p ib, <[ib.1 := ib.2]> p) (parts s0) (numbered bs order)).
  assert (fs2 = <[uid := Dir (set_parts s0 p)]> fs) as Hfs2.
  { subst fs2. rewrite (upload_all_dir uid _ fs1 s0).
    - rewrite Hfs1. by rewrite insert_insert_eq.
    - rewrite Hfs1. by rewrite lookup_insert_eq. }
  assert (NoDup (numbered bs order).*1) as Hkeys.
  { unfold numbered. rewrite <- list_fmap_compose.
    apply NoDup_fmap_2; [|done]. intros x y Hxy. simpl in Hxy. lia. }
  assert (∀ i, p !! i = if bool_decide (0 ≤ i < Z.of_nat (length bs))
                        then Some (default [] (bs !! Z.to_nat i)) else None)
    as Hp.
  { intros i. subst p. rewrite (foldl_insert_lookup _ _ _ Hkeys).
    case_bool_decide as Hi.
    - destruct (numbered_find bs order (Z.to_nat i)) as [n Hn].
      { apply Hmem. lia. }
      rewrite Z2Nat.id in Hn by lia. by rewrite Hn.
    - rewrite numbered_find_none; [done|].
      intros k Hk Hki. apply Hmem in Hk. lia. }
  assert (∀ i, is_Some (parts (set_parts s0 p) !! i)
               ↔ 0 ≤ i < Z.of_nat (length bs)) as Hdom.
  { intros i. simpl. rewrite Hp. case_bool_decide; split; try done.
    all: by intros [? ?]. }
  assert (parts (set_parts s0 p) ≠ ∅) as Hne.
  { intros He. destruct (Hdom 0) as [_ [b Hb]].
    - destruct bs; [done|]. simpl. lia.
    - by rewrite He, lookup_empty in Hb. }
  assert (mjoin (chunk_of (set_parts s0 p) <$> seqZ 0 (Z.of_nat (length bs)))
          = mjoin bs) as Hjoin.
  { f_equal. apply list_eq. intros k. rewrite list_lookup_fmap.
    destruct (decide (k < length bs)%nat) as [Hk|Hk].
    - rewrite lookup_seqZ_lt by lia. simpl. unfold chunk_of. simpl.
      rewrite Hp. rewrite bool_decide_eq_true_2 by lia. simpl.
      replace (Z.to_nat (0 + Z.of_nat k)) with k by lia.
      destruct (lookup_lt_is_Some_2 bs k Hk) as [b Hb]. by rewrite Hb.
    - rewrite lookup_seqZ_ge by lia. simpl.
      symmetry. apply lookup_ge_None_2. lia. }
  rewrite Hfs2.
  rewrite (complete_dir uid _ (set_parts s0 p)).
  - cbn [fst snd]. change (final_name uid (original_name (set_parts s0 p)))
      with final.
    rewrite (sorted_chunks_range _ _ Hdom), <- list_fmap_compose.
    change (snd ∘ _) with (chunk_of (set_parts s0 p)). rewrite Hjoin.
    assert (delete uid (<[final := File (mjoin bs)]> (<[uid := Dir (set_parts s0 p)]> fs))
            = <[final := File (mjoin bs)]> fs) as ->.
    { rewrite insert_insert_ne by apply final_name_ne.
      rewrite delete_insert_eq. apply delete_id.
      by rewrite lookup_insert_ne by apply final_name_ne. }
    split; [done|]. split; [done|].
    unfold complete, complete_io.
    by rewrite lookup_insert_ne, Hfree by apply final_name_ne.
  - by rewrite lookup_insert_eq.
  - done.
  - change (final_name uid (original_name (set_parts s0 p))) with final.
    rewrite can_create_insert_dir; [done | apply final_name_ne].
Qed.

Lemma chunks_in_any_order_witness :
  Sample.shuffled ≡ₚ seq 0 (length Sample.three_chunks) ∧
  (complete Sample.uid1
     (upload_all Sample.uid1 (numbered Sample.three_chunks Sample.shuffled)
        (initiate Sample.uid1 "f.bin" ∅).2)).2
  = {[ final_name Sample.uid1 "f.bin" := File (mjoin Sample.three_chunks) ]}.
Proof.
  assert (Sample.shuffled ≡ₚ seq 0 (length Sample.three_chunks)) as Hperm.
  { unfold Sample.shuffled, Sample.three_chunks. simpl.
    apply (Permutation_cons_app [0%nat; 1%nat] []). done. }
  split; [exact Hperm|].
  refine (proj1 (proj2 (chunks_in_any_order Sample.uid1 "f.bin"
    Sample.three_chunks Sample.shuffled ∅ _ _ _ Hperm))).
  - reflexivity.
  - vm_compute. reflexivity.
  - discriminate.
Defined.

Lemma replay_wf rs fs :
  Forall (λ ur, uuid_shaped ur.1 = true) rs →
  wf_store fs → wf_store (replay rs fs).
Proof.
  unfold replay. intros Hall. revert fs.
  induction Hall as [|[u r] rs Hu Hall IH]; intros fs Hwf; [done|].
  cbn [foldl]. apply IH. by apply serve_wf.
Qed.

(** X6: whatever requests the server has served since its upload directory was
    empty, every directory in it bears an id drawn by [uuid4]: chunk and
    completion requests with made-up ids create none. *)
Theorem served_directories_are_sessions rs :
  Forall (λ ur, uuid_shaped ur.1 = true) rs →
  ∀ name s, replay rs ∅ !! name = Some (Dir s) → uuid_shaped name = true.
Proof.
  intros Hall. apply (replay_wf rs ∅ Hall). intros name s H.
  by rewrite lookup_empty in H.
Qed.

Lemma served_directories_are_sessions_witness :
  uuid_shaped Sample.uid1 = true.
Proof.
  apply (served_directories_are_sessions
           [(Sample.uid1, Initiate "f.bin");
            (Sample.uid2, PutChunk "made-up" 0 ["x"%byte]);
            (Sample.uid2, PutChunk Sample.uid1 0 ["x"%byte])]
           ltac:(repeat constructor) Sample.uid1
           {| meta_filename := "f.bin"; parts := {[ 0 := ["x"%byte] ]} |}).
  vm_compute. reflexivity.
Defined.

(** X7: on a store reached from the empty one by served requests, completing
    a session that holds a chunk succeeds when the stored file name has no
    slash and no NUL and, in UTF-8, at most [NAME_MAX - 38] bytes: the
    artifact's name is then a valid file name, and it is the name of no
    directory. *)
Theorem complete_succeeds_after_replay rs uid s :
  Forall (λ ur, uuid_shaped ur.1 = true) rs →
  replay rs ∅ !! uid = Some (Dir s) →
  parts s ≠ ∅ →
  Text.has_slash (meta_filename s) = false →
  Text.has_nul (meta_filename s) = false →
  Text.utf8_length (meta_filename s) ≤ NAME_MAX - 38 →
  (complete uid (replay rs ∅)).1
  = CompleteResponse (uid +:+ "__" +:+ original_name s).
Proof.
  intros Hall Hs Hne Hslash Hnul Hlen.
  assert (wf_store (replay rs ∅)) as Hwf.
  { apply replay_wf; [done|]. intros k s' H. by rewrite lookup_empty in H. }
  assert (uuid_shaped uid = true) as Huid by (by eapply Hwf).
  rewrite (complete_dir uid _ s Hs Hne); [done|].
  apply can_create_wf; [done | done |].
  by apply valid_name_session.
Qed.

Lemma complete_succeeds_after_replay_witness :
  (complete Sample.uid1
     (replay [(Sample.uid1, Initiate "f.bin");
              (Sample.uid2, PutChunk Sample.uid1 0 ["x"%byte])] ∅)).1
  = CompleteResponse "123e4567-e89b-42d3-a456-426614174000__f.bin".
Proof.
  apply (complete_succeeds_after_replay
           [(Sample.uid1, Initiate "f.bin");
            (Sample.uid2, PutChunk Sample.uid1 0 ["x"%byte])]
           Sample.uid1
           {| meta_filename := "f.bin"; parts := {[ 0 := ["x"%byte] ]} |}).
  - repeat constructor.
  - vm_compute. reflexivity.
  - vm_compute. discriminate.
  - reflexivity.
  - reflexivity.
  - vm_compute. discriminate.
Defined.

Lemma all_space_lstrip s : all_space s = true → Text.lstrip s = EmptyString.
Proof.
  induction s as [|c s IH]; simpl; [done|]. intros H.
  apply andb_prop in H as [Hc Hs]. rewrite Hc. by apply IH.
Qed.

Lemma all_space_read_text_upto (n : nat) s :
  (String.length s ≤ n)%nat →
  all_space s = true → all_space (Text.read_text s) = true.
Proof.
  revert s. induction n as [|n IH]; intros [|c s] Hlen; try done.
  { simpl in Hlen. lia. }
  cbn [all_space Text.read_text]. simpl in Hlen.
  intros H. apply andb_prop in H as [Hc Hs].
  case_bool_decide as Hcr.
  - destruct s as [|c' s']; [done|].
    cbn [all_space] in Hs. apply andb_prop in Hs as [Hc' Hs'].
    simpl in Hlen. case_bool_decide; cbn [all_space].
    + rewrite (IH s'); [done | lia | done].
    + rewrite (IH (String c' s')); [done | simpl; lia |].
      cbn [all_space]. by rewrite Hc', Hs'.
  - cbn [all_space]. rewrite Hc, (IH s); [done | lia | done].
Qed.

(** X8: a stored file name that is empty or made of whitespace only gives the
    artifact the name [<upload_id>__assembled.bin]. *)
Theorem blank_name_default uid fs s :
  fs !! uid = Some (Dir s) →
  parts s ≠ ∅ →
  all_space (meta_filename s) = true →
  can_create (final_name uid "assembled.bin") fs = true →
  (complete uid fs).1 = CompleteResponse (uid +:+ "__assembled.bin").
Proof.
  intros Hs Hne Hblank Hcan.
  assert (original_name s = "assembled.bin") as Hname.
  { unfold original_name, Text.strip.
    rewrite (all_space_lstrip (Text.read_text (meta_filename s))); [done|].
    by apply (all_space_read_text_upto (String.length (meta_filename s))). }
  rewrite (complete_dir uid fs s Hs Hne); rewrite Hname; done.
Qed.

Lemma blank_name_default_witness :
  (complete Sample.uid1
     {[ Sample.uid1 := Dir {| meta_filename := "  ";
                              parts := {[ 0 := ["x"%byte] ]} |} ]}).1
  = CompleteResponse (Sample.uid1 +:+ "__assembled.bin").
Proof.
  apply (blank_name_default Sample.uid1 _
           {| meta_filename := "  "; parts := {[ 0 := ["x"%byte] ]} |}).
  - reflexivity.
  - vm_compute. discriminate.
  - reflexivity.
  - vm_compute. reflexivity.
Defined.

(** * Further properties of the uploader *)

Lemma allowed_nil cap sent : allowed cap sent [] = [].
Proof. destruct cap; simpl; [apply take_nil | done]. Qed.

Section Delivering.

Context (E : env) (meta : Meta) (data : bytes).

Let uid := upload_id meta.
Let c := chunk_size meta.

(** The loop when first attempts at chunks are delivered: it sends the
    missing indices in order until the cap, if any, is reached. *)
Lemma upload_loop_delivering cap idxs uploaded sent w s :
  (∀ i, net E (OpChunk i 1) = Deliver) →
  0 < c →
  NoDup idxs →
  (∀ i, i ∈ idxs → 0 ≤ i ∧ i * c < Z.of_nat (length data)) →
  srv w !! uid = Some (Dir s) →
  let todo := missing uploaded idxs in
  let now := allowed cap sent todo in
  ∃ w' s',
    upload_loop E meta data cap idxs uploaded sent w
    = (if bool_decide (now = todo) then Exhausted else Stopped, w') ∧
    trace w' = trace w ++ puts uid data c now ∧
    srv w' = <[uid := Dir s']> (srv w) ∧
    meta_filename s' = meta_filename s ∧
    (∀ i, parts s' !! i =
          if bool_decide (i ∈ now) then Some (slice data c i)
          else parts s !! i) ∧
    metaf w' = (if bool_decide (now = []) then metaf w else Stored meta).
Proof.
  intros Hnet Hc Hnodup. revert uploaded sent w s.
  induction Hnodup as [|idx rest Hnotin Hnodup IH];
    intros uploaded sent w s Hrange Hdir todo now.
  { exists w, s. subst todo now. change (missing uploaded []) with (@nil Z).
    rewrite allowed_nil. simpl. rewrite app_nil_r. repeat split; try done.
    symmetry. by apply insert_id. }
  assert (∀ i, i ∈ rest → 0 ≤ i ∧ i * c < Z.of_nat (length data)) as Hrange'.
  { intros i Hi. apply Hrange. by right. }
  cbn [upload_loop]. case_bool_decide as Hin.
  - assert (todo = missing uploaded rest) as Htodo.
    { subst todo. unfold missing. rewrite filter_cons.
      by destruct (decide (idx ∉ uploaded)). }
    subst now. rewrite Htodo.
    apply (IH uploaded sent w s Hrange' Hdir).
  - assert (todo = idx :: missing ({[idx]} ∪ uploaded) rest) as Htodo.
    { subst todo. rewrite (missing_add _ _ _ Hnotin). unfold missing.
      rewrite filter_cons. by destruct (decide (idx ∉ uploaded)). }
    destruct (cap_reached cap sent) eqn:Hcap.
    + assert (now = []) as Hnow.
      { subst now. unfold allowed, cap_reached in *. destruct cap as [k|]; [|done].
        apply Z.leb_le in Hcap. replace (Z.to_nat (k - sent)) with 0%nat by lia.
        done. }
      exists w, s. rewrite Hnow, Htodo.
      rewrite bool_decide_eq_false_2 by done.
      rewrite bool_decide_eq_true_2 by done.
      simpl. rewrite app_nil_r. repeat split; try done.
      symmetry. by apply insert_id.
    + assert (now = idx :: allowed cap (sent + 1)
                             (missing ({[idx]} ∪ uploaded) rest)) as Hnow.
      { subst now. rewrite Htodo. unfold allowed, cap_reached in *.
        destruct cap as [k|]; [|done]. apply Z.leb_gt in Hcap.
        replace (Z.to_nat (k - sent)) with (S (Z.to_nat (k - (sent + 1))))
          by lia. done. }
      destruct (Hrange idx) as [Hi0 Hilen]; [by left|].
      destruct (read_at_slice meta data idx Hc Hi0 Hilen) as [Hread Hne].
      fold c in Hread, Hne. fold c. rewrite Hread.
      destruct (slice data c idx) as [|x b'] eqn:Hb; [done|].
      rewrite (send_chunk_delivered E meta idx (x :: b') w s (Hnet _) Hdir).
      fold uid.
      set (s1 := set_parts s (<[idx := x :: b']> (parts s))).
      set (w1 := save_meta meta _).
      destruct (IH ({[idx]} ∪ uploaded) (sent + 1) w1 s1 Hrange')
        as (w' & s' & Hrun & Ht & Hs & Hn & Hp & Hm).
      { subst w1. simpl. by rewrite lookup_insert_eq. }
      set (now' := allowed cap (sent + 1) (missing ({[idx]} ∪ uploaded) rest))
        in *.
      exists w', s'. rewrite Hnow, Htodo. split; [|split; [|split; [|split; [done|split]]]].
      * rewrite Hrun. repeat case_bool_decide; try done; congruence.
      * rewrite Ht. subst w1. unfold puts. simpl. rewrite Hb.
        by rewrite <- app_assoc.
      * rewrite Hs. subst w1. simpl. by rewrite insert_insert_eq.
      * intros i. rewrite Hp. subst s1. simpl.
        destruct (decide (i = idx)) as [->|Hne'].
        -- rewrite lookup_insert_eq, Hb.
           rewrite (bool_decide_eq_true_2 (idx ∈ idx :: now')) by (by left).
           by destruct (bool_decide (idx ∈ now')).
        -- rewrite lookup_insert_ne by done.
           repeat case_bool_decide; try done; exfalso; set_solver.
      * rewrite Hm. subst w1. simpl.
        by destruct (bool_decide (now' = [])).
Qed.

End Delivering.

Lemma uploaded_dom s :
  (list_to_set ((sorted_chunks s).*1) : gset Z) = dom (parts s).
Proof.
  apply set_eq. intros i. by rewrite elem_of_uploaded, elem_of_dom.
Qed.

Lemma missing_empty l : missing ∅ l = l.
Proof.
  unfold missing. induction l as [|i l IH]; [done|].
  rewrite filter_cons. destruct (decide (i ∉ (∅ : gset Z))) as [|H].
  - by rewrite IH.
  - exfalso. apply H. set_solver.
Qed.

Section Transfers.

Context (E : env) (meta : Meta) (data : bytes).

Let uid := upload_id meta.
Let c := chunk_size meta.
Let total := total_chunks (Z.of_nat (length data)) c.

(** The status query of a run on a session the server knows. *)
Lemma status_phase w s :
  srv w !! uid = Some (Dir s) →
  match get_uploaded_chunks E uid w with
  | (inr l, w') => (list_to_set l : gset Z, w')
  | (inl _, w') => (∅, w')
  end = (seen E s, log (Sent (Status uid)) w).
Proof.
  intros Hdir. unfold get_uploaded_chunks, http, seen. cbn [serve].
  unfold status. cbn [log srv]. rewrite Hdir.
  destruct (net E OpStatus); simpl; try done.
  by rewrite uploaded_dom.
Qed.

Lemma seqZ_in_file i :
  0 < c → i ∈ seqZ 0 total → 0 ≤ i ∧ i * c < Z.of_nat (length data).
Proof.
  intros Hc Hi. apply elem_of_seqZ in Hi.
  pose proof (total_chunks_bounds (Z.of_nat (length data)) c Hc ltac:(lia)).
  fold total in H. nia.
Qed.

(** A run that the cap stops: the chunks sent are the first missing ones,
    they are stored, and the run returns [False]. *)
Lemma transfer_stops cap w s :
  (∀ i, net E (OpChunk i 1) = Deliver) →
  0 < c →
  srv w !! uid = Some (Dir s) →
  let todo := missing (seen E s) (seqZ 0 total) in
  let now := allowed cap 0 todo in
  now ≠ todo →
  ∃ s',
    transfer E meta data cap w
    = (Return false,
       {| srv := <[uid := Dir s']> (srv w);
          metaf := if bool_decide (now = []) then metaf w else Stored meta;
          trace := trace w ++ [Sent (Status uid)] ++ puts uid data c now |}) ∧
    meta_filename s' = meta_filename s ∧
    ∀ i, parts s' !! i =
         if bool_decide (i ∈ now) then Some (slice data c i)
         else parts s !! i.
Proof.
  intros Hnet Hc Hdir todo now Hstop. unfold transfer. fold uid c total.
  destruct (Z.eqb_spec c 0) as [|_]; [lia|].
  rewrite (status_phase w s Hdir).
  destruct (upload_loop_delivering E meta data cap (seqZ 0 total) (seen E s) 0
              (log (Sent (Status uid)) w) s Hnet Hc (NoDup_seqZ _ _))
    as (w' & s' & Hrun & Ht & Hs & Hn & Hp & Hm).
  { intros i. by apply seqZ_in_file. }
  { done. }
  fold uid c in Hrun, Ht, Hs, Hp. fold todo now in Hrun, Ht, Hp, Hm.
  rewrite Hrun. rewrite bool_decide_eq_false_2 by done.
  exists s'. split; [|done]. f_equal.
  destruct w' as [fs' mf' tr']. simpl in *. subst.
  by rewrite <- app_assoc.
Qed.


End Transfers.

(** ** A chunk that is never delivered *)

Section Blocked.

Context (E : env) (meta : Meta) (data : bytes).

Let uid := upload_id meta.
Let c := chunk_size meta.
Let total := total_chunks (Z.of_nat (length data)) c.





End Blocked.



(** ** Capped runs *)

(** X9: a run with [--max-chunks k] that finds more than [k] chunks missing
    sends the first [k] missing indices (none when [k] is zero or
    negative), one request each, and returns [False]; those chunks are then
    on the server and the progress record is kept. *)
Theorem capped_run_stops md5 E file_path (data : bytes) m w s k :
  let uid := upload_id m in
  let c := chunk_size m in
  let total := total_chunks (Z.of_nat (length data)) c in
  let todo := missing (dom (parts s)) (seqZ 0 total) in
  let now := take (Z.to_nat k) todo in
  (∀ i, net E (OpChunk i 1) = Deliver) →
  net E OpStatus = Deliver →
  metaf w = Stored m → file_md5 m = md5 data → 0 < c →
  srv w !! uid = Some (Dir s) →
  (Z.to_nat k < length todo)%nat →
  ∃ s',
    run_upload md5 E file_path data (Some k) w
    = (Return false,
       {| srv := <[uid := Dir s']> (srv w);
          metaf := Stored m;
          trace := trace w ++ [Sent (Status uid)] ++ puts uid data c now |}) ∧
    meta_filename s' = meta_filename s ∧
    ∀ i, parts s' !! i =
         if bool_decide (i ∈ now) then Some (slice data c i)
         else parts s !! i.
Proof.
  intros uid c total todo now Hnet Hst Hm Hd Hc Hdir Hless.
  unfold run_upload. rewrite (open_session_resume E _ _ _ w m Hm Hd).
  assert (seen E s = dom (parts s)) as Hseen by (unfold seen; by rewrite Hst).
  destruct (transfer_stops E m data (Some k) w s Hnet Hc Hdir)
    as (s' & Hrun & Hn & Hp).
  - rewrite Hseen. fold c total todo. cbn [allowed]. rewrite Z.sub_0_r.
    intros Heq. apply (f_equal length) in Heq.
    rewrite length_take in Heq. lia.
  - rewrite Hseen in Hrun, Hp. fold uid c total todo in Hrun, Hp.
    cbn [allowed] in Hrun, Hp. rewrite Z.sub_0_r in Hrun, Hp.
    fold now in Hrun, Hp. exists s'. split; [|done].
    rewrite Hrun. do 2 f_equal. rewrite Hm. by destruct (bool_decide _).
Qed.

Lemma capped_run_stops_witness :
  ∃ s',
    run_upload Sample.digest Sample.delivering "/data/f.bin" Sample.abc
      (Some 1) Sample.started
    = (Return false,
       {| srv := <[Sample.uid2 := Dir s']> (srv Sample.started);
          metaf := Stored (Sample.record_of Sample.uid2 2 Sample.abc);
          trace := [] ++ [Sent (Status Sample.uid2)] ++
                   puts Sample.uid2 Sample.abc 2 [0] |}).
Proof.
  destruct (capped_run_stops Sample.digest Sample.delivering "/data/f.bin"
    Sample.abc (Sample.record_of Sample.uid2 2 Sample.abc) Sample.started
    {| meta_filename := "f.bin"; parts := ∅ |} 1) as (s' & Hrun & _).
  - reflexivity.
  - reflexivity.
  - reflexivity.
  - reflexivity.
  - reflexivity.
  - reflexivity.
  - vm_compute. lia.
  - exists s'. exact Hrun.
Defined.

(** ** A status query that is lost *)



(** ** The resume demonstration *)

Lemma take_seqZ n total :
  0 ≤ n ≤ total → take (Z.to_nat n) (seqZ 0 total) = seqZ 0 n.
Proof.
  intros Hn. replace total with (n + (total - n)) by lia.
  rewrite seqZ_app by lia. apply take_app_length'.
  by rewrite length_seqZ.
Qed.

Lemma filter_all {A} (P : A → Prop) `{∀ x, Decision (P x)} (l : list A) :
  Forall P l → filter P l = l.
Proof.
  induction 1 as [|x l Hx Hl IH]; [done|].
  rewrite filter_cons. destruct (decide (P x)); [by rewrite IH | done].
Qed.

Lemma filter_none {A} (P : A → Prop) `{∀ x, Decision (P x)} (l : list A) :
  Forall (λ x, ¬ P x) l → filter P l = [].
Proof.
  induction 1 as [|x l Hx Hl IH]; [done|].
  rewrite filter_cons. by destruct (decide (P x)).
Qed.

Lemma missing_after_prefix (X : gset Z) n total :
  0 ≤ n ≤ total →
  (∀ i, i ∈ X ↔ 0 ≤ i < n) →
  missing X (seqZ 0 total) = seqZ n (total - n).
Proof.
  intros Hn HX. unfold missing.
  replace total with (n + (total - n)) at 1 by lia.
  rewrite seqZ_app by lia. rewrite filter_app.
  rewrite filter_none, filter_all; [done | |].
  - apply Forall_forall. intros i Hi. apply elem_of_seqZ in Hi.
    rewrite HX. lia.
  - apply Forall_forall. intros i Hi. apply elem_of_seqZ in Hi.
    intros H. apply H. apply HX. lia.
Qed.

(** X11: the demonstration on a file of more than three chunks, over transports
    that deliver: the capped run initiates, sends chunks 0, 1, 2 and returns
    [False]; the second run asks for the status, sends the chunks from 3 on,
    none of the first three again, and completes; the artifact holds the
    bytes of the file and the progress file is gone. *)
Theorem demo_resume_completes md5 E1 E2 file_path (data : bytes) w :
  let name := Text.basename file_path in
  let uid := uuid4 E1 in
  let c := Server.CHUNK_SIZE in
  let total := total_chunks (Z.of_nat (length data)) c in
  let final :=
    final_name uid (original_name {| meta_filename := name; parts := ∅ |}) in
  (∀ o, net E1 o = Deliver) →
  (∀ o, net E2 o = Deliver) →
  metaf w = Absent →
  srv w !! uid = None →
  can_create final (srv w) = true →
  3 < total →
  Demo.main_uploads md5 E1 E2 file_path data w
  = (Return false, Return true,
     {| srv := <[final := File data]> (srv w);
        metaf := Absent;
        trace := trace w ++
          [Sent (Initiate name); Sent (Status uid)] ++
          puts uid data c (seqZ 0 3) ++
          [Sent (Status uid)] ++
          puts uid data c (seqZ 3 (total - 3)) ++
          [Sent (Complete uid)] |}).
Proof.
  intros name uid c total final Hnet1 Hnet2 Hmeta Hfree Hcan Htotal.
  assert (data ≠ []) as Hdata.
  { intros ->. subst total. unfold total_chunks in Htotal. simpl in Htotal.
    rewrite Z.div_small in Htotal by (unfold c, Server.CHUNK_SIZE; lia). lia. }
  set (s0 := {| meta_filename := name; parts := ∅ |}).
  set (m := {| upload_id := uid; chunk_size := c;
               file_size := Z.of_nat (length data); filename := name;
               file_md5 := md5 data |}).
  unfold Demo.main_uploads.
  (* the capped run *)
  assert (∃ s1,
    run_upload md5 E1 file_path data (Some 3) w
    = (Return false,
       {| srv := <[uid := Dir s1]> (srv w); metaf := Stored m;
          trace := trace w ++ [Sent (Initiate name); Sent (Status uid)] ++
                   puts uid data c (seqZ 0 3) |}) ∧
    meta_filename s1 = name ∧
    ∀ i, parts s1 !! i =
         if bool_decide (0 ≤ i < 3) then Some (slice data c i) else None)
    as (s1 & Hrun1 & Hn1 & Hp1).
  { unfold run_upload. fold name.
    rewrite open_session_fresh; [|by left|done|done].
    fold uid c m s0.
    set (w1 := Build_world _ _ _).
    destruct (transfer_stops E1 m data (Some 3) w1 s0 (λ i, Hnet1 _))
      as (s1 & Hrun & Hn & Hp).
    - done.
    - subst w1. simpl. by rewrite lookup_insert_eq.
    - unfold seen. rewrite Hnet1. cbn [parts s0 upload_id chunk_size m].
      rewrite dom_empty_L, missing_empty. fold c total. cbn [allowed].
      rewrite Z.sub_0_r, (take_seqZ 3 total) by lia. intros Heq.
      apply (f_equal length) in Heq. rewrite !length_seqZ in Heq. lia.
    - revert Hrun Hp. unfold seen. rewrite Hnet1.
      cbn [parts s0 upload_id chunk_size m].
      rewrite dom_empty_L, missing_empty. fold c total. cbn [allowed].
      rewrite Z.sub_0_r, (take_seqZ 3 total) by lia. intros Hrun Hp.
      exists s1. split; [|split; [done|]].
      + rewrite Hrun. subst w1. cbn [srv metaf trace].
        rewrite insert_insert_eq, <- app_assoc. done.
      + intros i. rewrite Hp. rewrite lookup_empty.
        pose proof (elem_of_seqZ 0 3 i) as Hseq.
        destruct (decide (0 ≤ i < 3)) as [Hi|Hi].
        * rewrite (bool_decide_eq_true_2 (0 ≤ i < 3)) by done.
          rewrite bool_decide_eq_true_2; [done|]. apply Hseq. lia.
        * rewrite (bool_decide_eq_false_2 (0 ≤ i < 3)) by done.
          rewrite bool_decide_eq_false_2; [done|]. intros Hx.
          apply Hseq in Hx. lia. }
  rewrite Hrun1. cbn [fst snd].
  (* the second run *)
  unfold run_upload.
  rewrite (open_session_resume E2 _ _ _ _ m); [|done|done].
  rewrite (transfer_reliable E2 m data _ s1); cbn [upload_id chunk_size m srv trace].
  - fold c total. rewrite (missing_after_prefix (dom (parts s1)) 3 total).
    + assert (original_name s1 = original_name s0) as ->.
      { unfold original_name. by rewrite Hn1. }
      change (final_name uid (original_name s0)) with final.
      cbn [fst snd]. f_equal. f_equal.
      * rewrite insert_insert_ne by apply final_name_ne.
        rewrite delete_insert_eq. apply delete_id.
        by rewrite lookup_insert_ne by apply final_name_ne.
      * unfold puts. by rewrite <- !app_assoc.
    + lia.
    + intros i. rewrite elem_of_dom, Hp1.
      destruct (decide (0 ≤ i < 3)) as [Hi|Hi].
      * rewrite bool_decide_eq_true_2 by done. split; [done | by eexists].
      * rewrite bool_decide_eq_false_2 by done. split; [by intros [? ?] | done].
  - done.
  - done.
  - done.
  - by rewrite lookup_insert_eq.
  - intros i b. rewrite Hp1. fold c total.
    destruct (decide (0 ≤ i < 3)) as [Hi|Hi].
    + rewrite bool_decide_eq_true_2 by done. intros [= <-]. split; [lia | done].
    + by rewrite bool_decide_eq_false_2.
  - assert (original_name s1 = original_name s0) as ->.
    { unfold original_name. by rewrite Hn1. }
    change (final_name uid (original_name s0)) with final.
    rewrite can_create_insert_dir; [done | apply final_name_ne].
Qed.

Lemma demo_resume_completes_witness :
  3 < total_chunks (Z.of_nat (length Sample.four_chunks)) Server.CHUNK_SIZE ∧
  (Demo.main_uploads Sample.digest Sample.delivering Sample.delivering
     "/samples/big_test.bin" Sample.four_chunks Sample.blank).1
  = (Return false, Return true).
Proof.
  assert (3 < total_chunks (Z.of_nat (length Sample.four_chunks))
                Server.CHUNK_SIZE) as Htotal.
  { unfold Sample.four_chunks. rewrite length_replicate, Z2Nat.id.
    - vm_compute. reflexivity.
    - unfold Server.CHUNK_SIZE. lia. }
  split; [exact Htotal|].
  rewrite (demo_resume_completes Sample.digest Sample.delivering
             Sample.delivering "/samples/big_test.bin" Sample.four_chunks
             Sample.blank).
  - reflexivity.
  - reflexivity.
  - reflexivity.
  - reflexivity.
  - reflexivity.
  - vm_compute. reflexivity.
  - exact Htotal.
Defined.

(** ** Runs over any transport *)

Section AnyTransport.

Context (E : env).

(** The requests of [transfer]: a status query, the requests of the chunk
    loop, and a completion request when the loop ran to its end. *)
Lemma transfer_shape meta data cap w :
  let uid := upload_id meta in
  let c := chunk_size meta in
  let total := total_chunks (Z.of_nat (length data)) c in
  let r := transfer E meta data cap w in
  ∃ tr,
    trace r.2 = trace w ++ tr ∧
    Forall (λ e, match e with
                 | Sent (Status u) | Sent (Complete u) => u = uid
                 | Sent (Initiate _) => False
                 | e => loop_event data c uid (seqZ 0 total) e
                 end) tr ∧
    (r.1 = Return true →
       metaf r.2 = Absent ∧ net E OpComplete = Deliver ∧
       ∃ tr', tr = tr' ++ [Sent (Complete uid)]).
Proof.
  intros uid c total r. subst r. unfold transfer. fold uid c total.
  destruct (c =? 0).
  { exists []. simpl. rewrite app_nil_r. by repeat split. }
  destruct (get_uploaded_chunks_spec E uid w) as (Ht2 & _ & _).
  set (q := match get_uploaded_chunks E uid w with
            | (inr l, w') => (list_to_set l : gset Z, w')
            | (inl _, w') => (∅, w')
            end).
  assert (q.2 = (get_uploaded_chunks E uid w).2) as Hq.
  { subst q. by destruct (get_uploaded_chunks E uid w) as [[?|?] ?]. }
  destruct q as [uploaded w2]. simpl in Hq. subst w2.
  set (w2 := (get_uploaded_chunks E uid w).2) in *.
  destruct (upload_loop_spec E meta data cap (seqZ 0 total) uploaded 0 w2
              (seqZ_sorted _ _)) as (tr & Ht & Hall & _).
  fold uid c in Hall.
  assert (Forall (λ e, match e with
                 | Sent (Status u) | Sent (Complete u) => u = uid
                 | Sent (Initiate _) => False
                 | e => loop_event data c uid (seqZ 0 total) e
                 end) (Sent (Status uid) :: tr)) as Hall'.
  { constructor; [done|]. eapply Forall_impl; [exact Hall|].
    intros e He. by destruct e as [[| | |]|]. }
  destruct (upload_loop E meta data cap _ uploaded 0 w2) as [[| |e] w3];
    cbn [fst snd] in *.
  - unfold complete_upload.
    pose proof (http_trace E OpComplete (Complete uid) w3) as Ht4.
    pose proof (http_metaf E OpComplete (Complete uid) w3) as Hm4.
    pose proof (http_answer E OpComplete (Complete uid) w3) as Ha4.
    exists (Sent (Status uid) :: tr ++ [Sent (Complete uid)]).
    assert (∀ w4, trace w4 = trace w3 ++ [Sent (Complete uid)] →
              trace w4 = trace w ++ Sent (Status uid) :: tr ++ [Sent (Complete uid)])
      as Htrace.
    { intros w4 ->. rewrite Ht. subst w2. rewrite Ht2.
      by rewrite <- !app_assoc. }
    assert (Forall (λ e, match e with
                 | Sent (Status u) | Sent (Complete u) => u = uid
                 | Sent (Initiate _) => False
                 | e => loop_event data c uid (seqZ 0 total) e
                 end) (Sent (Status uid) :: tr ++ [Sent (Complete uid)]))
      as Hall''.
    { rewrite app_comm_cons. apply Forall_app. split; [done|].
      by repeat constructor. }
    destruct (http E OpComplete (Complete uid) w3) as [[resp|] w4];
      cbn [fst snd] in *.
    + destruct (Ha4 resp eq_refl) as (Hnet & _ & _).
      destruct resp; cbn [fst snd]; (split; [by apply Htrace|]);
        (split; [done|]); try discriminate.
      intros _. split; [done|]. split; [done|].
      by exists (Sent (Status uid) :: tr).
    + split; [by apply Htrace|]. split; [done | discriminate].
  - exists (Sent (Status uid) :: tr).
    split; [rewrite Ht; subst w2; rewrite Ht2; by rewrite <- app_assoc|].
    split; [done | discriminate].
  - exists (Sent (Status uid) :: tr).
    split; [rewrite Ht; subst w2; rewrite Ht2; by rewrite <- app_assoc|].
    split; [done | discriminate].
Qed.

(** The record a run works with is on disk and carries the checksum of the
    file. *)
Lemma open_session_record name digest size w :
  let r := open_session E name digest size w in
  match r.1 with
  | inr m => metaf r.2 = Stored m ∧ file_md5 m = digest
  | inl _ => True
  end.
Proof.
  intros r. subst r.
  assert (∀ w0, match (begin_session E name digest size w0).1 with
                | inr m => metaf (begin_session E name digest size w0).2
                           = Stored m ∧ file_md5 m = digest
                | inl _ => True
                end) as Hbegin.
  { intros w0. unfold begin_session, initiate_upload.
    by destruct (http E OpInitiate (Initiate name) w0) as [[[]|] w1]. }
  destruct (metaf w) as [| |m|v Hv] eqn:Hm.
  - unfold open_session. rewrite Hm. cbn [load_meta]. apply Hbegin.
  - unfold open_session. by rewrite Hm.
  - unfold open_session. rewrite Hm.
    cbn [load_meta truth file_md5_differs subscripts].
    case_bool_decide as Hd; [apply Hbegin|]. simpl. split; [done|].
    by destruct (decide (file_md5 m = digest)).
  - rewrite (open_session_holds E name digest size w v Hv Hm).
    destruct (truthy v); [|apply Hbegin].
    destruct v as [| | | | | |members]; try done.
    destruct (member "file_md5" members) as [[| | | |h| |]|];
      try apply Hbegin.
    case_bool_decide; [apply Hbegin | done].
Qed.

(** When a run initiates: with no record or a stale one, and then first. *)
Lemma open_session_initiates name digest size w :
  trace (open_session E name digest size w).2
  = trace w ++
    match metaf w with
    | Absent => [Sent (Initiate name)]
    | Garbled => []
    | Stored m =>
        if bool_decide (file_md5 m = digest) then []
        else [Sent (Initiate name)]
    | Holds v _ =>
        if truthy v then
          match v with
          | JDict members =>
              match member "file_md5" members with
              | Some (JStr h) =>
                  if bool_decide (h = digest) then []
                  else [Sent (Initiate name)]
              | _ => [Sent (Initiate name)]
              end
          | _ => []
          end
        else [Sent (Initiate name)]
    end.
Proof.
  assert (∀ w0, trace w0 = trace w →
            trace (begin_session E name digest size w0).2
            = trace w ++ [Sent (Initiate name)]) as Hbegin.
  { intros w0 <-.
    by destruct (begin_session_events E name digest size w0) as [-> _]. }
  destruct (metaf w) as [| |m|v Hv] eqn:Hm.
  - unfold open_session. rewrite Hm. cbn [load_meta]. by apply Hbegin.
  - unfold open_session. rewrite Hm. simpl. by rewrite app_nil_r.
  - unfold open_session. rewrite Hm.
    cbn [load_meta truth file_md5_differs subscripts].
    destruct (decide (file_md5 m = digest)) as [Hd|Hd].
    + rewrite (bool_decide_eq_false_2 (file_md5 m ≠ digest)) by tauto.
      rewrite bool_decide_eq_true_2 by done. simpl. by rewrite app_nil_r.
    + rewrite (bool_decide_eq_true_2 (file_md5 m ≠ digest)) by done.
      rewrite bool_decide_eq_false_2 by done. by apply Hbegin.
  - rewrite (open_session_holds E name digest size w v Hv Hm).
    destruct (truthy v); [|by apply Hbegin].
    destruct v as [| | | | | |members]; try (simpl; by rewrite app_nil_r).
    destruct (member "file_md5" members) as [[| | | |h| |]|] eqn:Hmd5;
      try (by apply Hbegin).
    destruct (decide (h = digest)) as [->|Hd].
    + rewrite (bool_decide_eq_false_2 (digest ≠ digest)) by tauto.
      rewrite bool_decide_eq_true_2 by done. simpl. by rewrite app_nil_r.
    + rewrite (bool_decide_eq_true_2 (h ≠ digest)) by done.
      rewrite bool_decide_eq_false_2 by done. by apply Hbegin.
Qed.

Lemma fed_from_other data c uid fs fs' k :
  fed_from data c uid fs fs' → k ≠ uid → fs' !! k = fs !! k.
Proof.
  intros Hfed Hk. induction Hfed as [|fs1 i b Hfed IH Hread]; [done|].
  rewrite <- IH. unfold Server.upload_chunk.
  destruct (fs1 !! uid) as [[s|x]|]; simpl; try done.
  by rewrite lookup_insert_ne.
Qed.

Lemma fed_from_dir data c uid fs fs' s :
  fed_from data c uid fs fs' → fs !! uid = Some (Dir s) →
  ∃ s', fs' !! uid = Some (Dir s') ∧ meta_filename s' = meta_filename s.
Proof.
  intros Hfed Hs. induction Hfed as [|fs1 i b Hfed IH Hread]; [by exists s|].
  destruct IH as (s1 & H1 & Hn). unfold Server.upload_chunk. rewrite H1.
  simpl. rewrite lookup_insert_eq. by eexists.
Qed.

Lemma complete_cases_dir uid fs s :
  fs !! uid = Some (Dir s) →
  (complete uid fs).2 = fs ∨
  ∃ out, (complete uid fs).2
         = delete uid (<[final_name uid (original_name s) := File out]> fs).
Proof.
  intros Hs. unfold complete, complete_io. rewrite Hs.
  destruct (sorted_chunks s) as [|p l]; [by left|].
  destruct (can_create _ fs); [|by left].
  rewrite assemble_no_fault. simpl. right. by eexists.
Qed.

End AnyTransport.

(** X12: whatever the transport does, a run that returns [True] has had its
    completion request answered and has removed the progress file, and a
    run that returns [False] leaves a progress record that carries the
    checksum of the file, so that the next run resumes. *)
Theorem result_tells_record md5 E file_path (data : bytes) cap w :
  let r := run_upload md5 E file_path data cap w in
  (r.1 = Return true →
     metaf r.2 = Absent ∧ net E OpComplete = Deliver ∧
     ∃ tr uid, trace r.2 = tr ++ [Sent (Complete uid)]) ∧
  (r.1 = Return false →
     ∃ m, metaf r.2 = Stored m ∧ file_md5 m = md5 data).
Proof.
  intros r. subst r. unfold run_upload.
  pose proof (open_session_record E (Text.basename file_path) (md5 data)
                (Z.of_nat (length data)) w) as Hrec.
  destruct (open_session E _ _ _ w) as [[e|m] w1]; cbn [fst snd] in *.
  { split; discriminate. }
  destruct Hrec as [Hm1 Hd]. split.
  - intros Htrue.
    destruct (transfer_shape E m data cap w1) as (tr & Ht & _ & Hok).
    destruct (Hok Htrue) as (Hmeta & Hnet & tr' & ->).
    split; [done|]. split; [done|].
    exists (trace w1 ++ tr'), (upload_id m). rewrite Ht. by rewrite app_assoc.
  - intros Hfalse.
    destruct (transfer_spec E m data cap w1)
      as (tr & _ & _ & _ & Hmeta & _ & _).
    exists m. split; [|done].
    destruct Hmeta as [Hx|[Hx|[_ Hx]]]; [by rewrite Hx | done | congruence].
Qed.

(** X13: whatever the transport does, a run sends an initiation exactly when the
    progress file is missing or its checksum is not that of the file (which
    includes a file that holds a document counting as false, or an object
    without that checksum), then as its first request, and never another. *)
Theorem initiates_once_when_needed md5 E file_path (data : bytes) cap w :
  let r := run_upload md5 E file_path data cap w in
  let first :=
    match metaf w with
    | Absent => [Sent (Initiate (Text.basename file_path))]
    | Garbled => []
    | Stored m =>
        if bool_decide (file_md5 m = md5 data) then []
        else [Sent (Initiate (Text.basename file_path))]
    | Holds v _ =>
        if truthy v then
          match v with
          | JDict members =>
              match member "file_md5" members with
              | Some (JStr h) =>
                  if bool_decide (h = md5 data) then []
                  else [Sent (Initiate (Text.basename file_path))]
              | _ => [Sent (Initiate (Text.basename file_path))]
              end
          | _ => []
          end
        else [Sent (Initiate (Text.basename file_path))]
    end in
  ∃ tr, trace r.2 = trace w ++ first ++ tr ∧
        Forall (λ e, is_initiate e = false) tr.
Proof.
  intros r first. subst r. unfold run_upload.
  pose proof (open_session_initiates E (Text.basename file_path) (md5 data)
                (Z.of_nat (length data)) w) as Hfirst.
  fold first in Hfirst.
  destruct (open_session E _ _ _ w) as [[e|m] w1]; cbn [fst snd] in *.
  - exists []. rewrite app_nil_r. split; [done | constructor].
  - destruct (transfer_spec E m data cap w1) as (tr & Ht & Hall & _).
    exists tr. split; [by rewrite Ht, Hfirst, app_assoc|].
    eapply Forall_impl; [exact Hall|]. by intros e [? _].
Qed.

(** X14: whatever the transport does, every chunk request of a resumed run goes
    to the session of the record and carries, for an index below
    [total_chunks], the bytes of the file at that chunk's offset. *)
Theorem chunks_sent_are_slices md5 E file_path (data : bytes) cap w m :
  let c := chunk_size m in
  let total := total_chunks (Z.of_nat (length data)) c in
  let r := run_upload md5 E file_path data cap w in
  metaf w = Stored m → file_md5 m = md5 data → 0 < c →
  ∃ tr, trace r.2 = trace w ++ tr ∧
        ∀ u i b, Sent (PutChunk u i b) ∈ tr →
                 u = upload_id m ∧ 0 ≤ i < total ∧ b = slice data c i.
Proof.
  intros c total r Hm Hd Hc. subst r. unfold run_upload.
  rewrite (open_session_resume E _ _ _ w m Hm Hd).
  destruct (transfer_shape E m data cap w) as (tr & Ht & Hall & _).
  exists tr. split; [done|]. intros u i b Hin.
  rewrite Forall_forall in Hall. specialize (Hall _ Hin). simpl in Hall.
  destruct Hall as (-> & Hi & Hread). split; [done|].
  apply elem_of_seqZ in Hi. split; [subst total c; lia|].
  by apply read_at_is_slice.
Qed.

Lemma chunks_sent_are_slices_witness :
  ∃ tr,
    trace (run_upload Sample.digest Sample.losing_chunk_1 "/data/f.bin"
             Sample.abc None Sample.started).2
    = trace Sample.started ++ tr ∧
    ∀ u i b, Sent (PutChunk u i b) ∈ tr →
             u = Sample.uid2 ∧
             0 ≤ i < total_chunks (Z.of_nat (length Sample.abc)) 2 ∧
             b = slice Sample.abc 2 i.
Proof.
  apply (chunks_sent_are_slices Sample.digest Sample.losing_chunk_1
           "/data/f.bin" Sample.abc None Sample.started
           (Sample.record_of Sample.uid2 2 Sample.abc)).
  - reflexivity.
  - reflexivity.
  - reflexivity.
Defined.

(** X15: whatever the transport does, a resumed run only touches the directory
    of its session and the name of its artifact: every other entry of the
    upload directory is as it was. *)
Theorem run_touches_own_session_only md5 E file_path (data : bytes) cap w m s k :
  let uid := upload_id m in
  let r := run_upload md5 E file_path data cap w in
  metaf w = Stored m → file_md5 m = md5 data →
  srv w !! uid = Some (Dir s) →
  k ≠ uid → k ≠ final_name uid (original_name s) →
  srv r.2 !! k = srv w !! k.
Proof.
  intros uid r Hm Hd Hdir Hk Hfinal. subst r. unfold run_upload.
  rewrite (open_session_resume E _ _ _ w m Hm Hd).
  destruct (transfer_spec E m data cap w)
    as (tr & _ & _ & (fs & Hfed & Hfs) & _).
  fold uid in Hfed, Hfs.
  pose proof (fed_from_other _ _ _ _ _ k Hfed Hk) as Hother.
  destruct (fed_from_dir _ _ _ _ _ s Hfed Hdir) as (s' & Hs' & Hn).
  destruct Hfs as [-> | ->]; [done|].
  destruct (complete_cases_dir uid fs s' Hs') as [-> | (out & ->)]; [done|].
  rewrite lookup_delete_ne by done.
  assert (original_name s' = original_name s) as ->
    by (unfold original_name; by rewrite Hn).
  by rewrite lookup_insert_ne.
Qed.

Lemma run_touches_own_session_only_witness :
  srv (run_upload Sample.digest Sample.delivering "/data/f.bin" Sample.abc
         None Sample.interrupted).2 !! Sample.uid1
  = srv Sample.interrupted !! Sample.uid1.
Proof.
  apply (run_touches_own_session_only Sample.digest Sample.delivering
           "/data/f.bin" Sample.abc None Sample.interrupted
           (Sample.record_of Sample.uid2 2 Sample.abc)
           {| meta_filename := "f.bin"; parts := {[ 0 := ["a"; "b"]%byte ]} |}
           Sample.uid1).
  - reflexivity.
  - reflexivity.
  - reflexivity.
  - discriminate.
  - discriminate.
Defined.

(** ** Chunks of a file *)

Lemma slice_length (data : bytes) c i :
  0 < c → 0 ≤ i → i * c ≤ Z.of_nat (length data) →
  Z.of_nat (length (slice data c i))
  = Z.min c (Z.of_nat (length data) - i * c).
Proof.
  intros Hc Hi Hlen. unfold slice.
  rewrite takeZ_take, dropZ_drop, length_take, length_drop. nia.
Qed.

(** X16: cutting a file in chunks of [chunk_size] bytes gives
    [total_chunks] chunks, none of them empty, all of [chunk_size] bytes
    but possibly the last, which glued in order give the file back. *)
Theorem chunks_cover_file (data : bytes) c :
  0 < c →
  let total := total_chunks (Z.of_nat (length data)) c in
  mjoin (slice data c <$> seqZ 0 total) = data ∧
  ∀ i, 0 ≤ i < total →
       1 ≤ Z.of_nat (length (slice data c i)) ≤ c ∧
       (i < total - 1 → Z.of_nat (length (slice data c i)) = c).
Proof.
  intros Hc total. split; [by apply slices_join|].
  intros i Hi.
  pose proof (total_chunks_bounds (Z.of_nat (length data)) c Hc ltac:(lia)) as Hb.
  fold total in Hb. rewrite slice_length by nia. split; nia.
Qed.

Lemma chunks_cover_file_witness :
  mjoin (slice Sample.abc 2
           <$> seqZ 0 (total_chunks (Z.of_nat (length Sample.abc)) 2))
  = Sample.abc.
Proof.
  exact (proj1 (chunks_cover_file Sample.abc 2 ltac:(reflexivity))).
Defined.

(** ** Retries that succeed *)

Section Retry.

Context (E : env) (meta : Meta).

Let uid := upload_id meta.

(** A chunk whose first [n] attempts are lost, request or reply, and whose
    next attempt is delivered while the schedule lasts: it is sent [n + 1]
    times with the first [n] delays of the schedule in between, it is then
    on the server once, with its bytes, and the progress record is
    written. *)
Lemma send_chunk_retry (n : nat) idx b k sched w s :
  (n < length sched)%nat →
  (∀ j, (j < n)%nat → net E (OpChunk idx (k + j)) ≠ Deliver) →
  net E (OpChunk idx (k + n)) = Deliver →
  srv w !! uid = Some (Dir s) →
  send_chunk E meta idx b k sched w
  = (true,
     {| srv := <[uid := Dir (set_parts s (<[idx := b]> (parts s)))]> (srv w);
        metaf := Stored meta;
        trace := trace w ++
          (take n sched ≫= λ t, [Sent (PutChunk uid idx b); Sleep t]) ++
          [Sent (PutChunk uid idx b)] |}).
Proof.
  revert k sched w s. induction n as [|n IH]; intros k sched w s Hlen Hfail Hok Hdir.
  - destruct sched as [|t sched]; [simpl in Hlen; lia|].
    rewrite Nat.add_0_r in Hok. cbn [send_chunk].
    unfold Uploader.upload_chunk. rewrite (http_deliver E _ _ _ Hok).
    cbn [serve fst snd]. unfold Server.upload_chunk. fold uid. rewrite Hdir.
    rewrite write_body_id. simpl. done.
  - destruct sched as [|t sched]; [simpl in Hlen; lia|]. simpl in Hlen.
    cbn [send_chunk]. fold uid.
    destruct (upload_chunk_attempt E uid idx k b w) as (Ht & Hm & Hs & Htrue).
    destruct (Uploader.upload_chunk E uid idx k b w) as [[] w1];
      cbn [fst snd] in *.
    { destruct (Htrue eq_refl) as [Hd _].
      specialize (Hfail 0%nat ltac:(lia)). rewrite Nat.add_0_r in Hfail. done. }
    assert (∃ s1, srv w1 = <[uid := Dir s1]> (srv w) ∧
                  set_parts s1 (<[idx := b]> (parts s1))
                  = set_parts s (<[idx := b]> (parts s))) as (s1 & Hs1 & Hsame).
    { destruct Hs as [Hs|Hs].
      - exists s. split; [|done]. rewrite Hs. symmetry. by apply insert_id.
      - exists (set_parts s (<[idx := b]> (parts s))). rewrite Hs.
        unfold Server.upload_chunk. rewrite Hdir.
        rewrite write_body_id. simpl. split; [done|].
        unfold set_parts. simpl. by rewrite insert_insert_eq. }
    rewrite (IH (S k) sched (log (Sleep t) w1) s1).
    + cbn [log srv trace]. rewrite Hs1, insert_insert_eq, Hsame, Ht.
      cbn. by rewrite <- !app_assoc.
    + lia.
    + intros j Hj. replace (S k + j)%nat with (k + S j)%nat by lia.
      apply Hfail. lia.
    + by replace (S k + n)%nat with (k + S n)%nat by lia.
    + cbn [log srv]. rewrite Hs1. by rewrite lookup_insert_eq.
Qed.

End Retry.

(** X17: a chunk that fails [n] times, with [n] below the length of the
    schedule, and then goes through is accepted once: [n + 1] requests, the
    delays 1, 2, ... of the schedule after the failures, one chunk file with
    the bytes sent, whether the lost attempts reached the server or not. *)
Theorem retry_then_accept E meta (n : nat) idx b w s :
  let uid := upload_id meta in
  (n < length RETRY_BACKOFF)%nat →
  (∀ j, (1 ≤ j ≤ n)%nat → net E (OpChunk idx j) ≠ Deliver) →
  net E (OpChunk idx (S n)) = Deliver →
  srv w !! uid = Some (Dir s) →
  send_chunk E meta idx b 1 RETRY_BACKOFF w
  = (true,
     {| srv := <[uid := Dir (set_parts s (<[idx := b]> (parts s)))]> (srv w);
        metaf := Stored meta;
        trace := trace w ++
          (take n RETRY_BACKOFF ≫= λ t, [Sent (PutChunk uid idx b); Sleep t]) ++
          [Sent (PutChunk uid idx b)] |}).
Proof.
  intros uid Hn Hfail Hok Hdir.
  apply (send_chunk_retry E meta n idx b 1 RETRY_BACKOFF w s Hn).
  - intros j Hj. apply Hfail. lia.
  - by replace (1 + n)%nat with (S n) by lia.
  - done.
Qed.

Lemma retry_then_accept_witness :
  send_chunk Sample.flaky (Sample.record_of Sample.uid2 2 Sample.abc) 0
    ["a"; "b"]%byte 1 RETRY_BACKOFF Sample.started
  = (true,
     {| srv := {[ Sample.uid2 :=
                    Dir {| meta_filename := "f.bin";
                           parts := {[ 0 := ["a"; "b"]%byte ]} |} ]};
        metaf := Stored (Sample.record_of Sample.uid2 2 Sample.abc);
        trace := [Sent (PutChunk Sample.uid2 0 ["a"; "b"]%byte); Sleep 1;
                  Sent (PutChunk Sample.uid2 0 ["a"; "b"]%byte); Sleep 2;
                  Sent (PutChunk Sample.uid2 0 ["a"; "b"]%byte)] |}).
Proof.
  rewrite (retry_then_accept Sample.flaky
             (Sample.record_of Sample.uid2 2 Sample.abc) 2 0 ["a"; "b"]%byte
             Sample.started {| meta_filename := "f.bin"; parts := ∅ |}).
  - vm_compute. reflexivity.
  - vm_compute. lia.
  - intros j Hj. assert (j = 1 ∨ j = 2)%nat as [-> | ->] by lia; discriminate.
  - reflexivity.
  - reflexivity.
Defined.
